(** * cytube-bot: the bot runtime ([cytube_bot/bot.py]) and the user model
      ([cytube_bot/user.py]), embedded in Rocq.

    Python objects are embedded as a small universe of values, exceptions as
    an inductive type, and the coroutines of [Bot] as functions in a state
    and exception monad.  The collaborators of the bot (HTTP fetch, JSON
    parsing, transport) are answered from a script of replies that is part
    of the state; every call to a collaborator is recorded in a trace. *)

From stdpp Require Import gmap strings list.
From Stdlib Require Import ZArith Ascii String.

#[local] Set Warnings "-register-all".
#[local] Open Scope string_scope.
#[local] Open Scope Z_scope.

(** ** Python values *)

(** The values the runtime handles: what [json.loads] produces (numbers
    with a fraction apart), plus opaque references [VObj] to objects of the
    collaborators (a transport session, the bot itself when it is passed
    as event payload). *)
Inductive value :=
  | VNone
  | VBool (b : bool)
  | VInt (z : Z)
  | VStr (s : string)
  | VList (l : list value)
  | VDict (d : gmap string value)
  | VObj (ref : string).

Abbreviation dict := (gmap string value).

(** Truth value of an object, as [if x:] tests it. *)
Definition truthy (v : value) : bool :=
  match v with
  | VNone => false
  | VBool b => b
  | VInt z => negb (z =? 0)
  | VStr s => negb (String.eqb s "")
  | VList l => match l with [] => false | _ :: _ => true end
  | VDict d => negb (bool_decide (dom d = ∅))
  | VObj _ => true
  end.

(** [d.get(key, default)] on a dictionary. *)
Definition dict_get (d : dict) (key : string) (default : value) : value :=
  match d !! key with
  | Some v => v
  | None => default
  end.

(** ** Exceptions and outcomes *)

Inductive exn :=
  | SocketConfigError (args : list value)
  | LoginError (msg : value)
  | ChannelPermissionError (msg : value)
  | Kicked (data : value)
  | KeyError (key : string)
  | StopIteration
  | AttributeError (obj attr : string)
  | TypeError
  | ValueError
  | SocketIOError (msg : string)
  (* an exception that does not derive from [Exception]
     (KeyboardInterrupt, SystemExit, GeneratorExit) *)
  | BaseException (name : string).

(** [isinstance(ex, Exception)], the test of [except Exception]. *)
Definition is_Exception (e : exn) : bool :=
  match e with
  | BaseException _ => false
  | _ => true
  end.

(** What a call does: it returns, it raises, or it is suspended on a
    collaborator that never answers ([Blocked]: the script of replies is
    exhausted). *)
Inductive outcome (A : Type) :=
  | Ret (a : A)
  | Raise (e : exn)
  | Blocked.
Arguments Ret {A} a.
Arguments Raise {A} e.
Arguments Blocked {A}.

(** ** Pure operations on values that can raise *)

(** [v[key]] with a string key. *)
Definition subscript (v : value) (key : string) : outcome value :=
  match v with
  | VDict d =>
      match d !! key with
      | Some x => Ret x
      | None => Raise (KeyError key)
      end
  | _ => Raise TypeError
  end.

(** [v.get(key, default)]: only dictionaries have the method. *)
Definition py_get (v : value) (key : string) (default : value) : outcome value :=
  match v with
  | VDict d => Ret (dict_get d key default)
  | _ => Raise (AttributeError "object" "get")
  end.

(** The one-character strings of a string, as iterating over it yields. *)
Fixpoint chars (s : string) : list value :=
  match s with
  | EmptyString => []
  | String c s' => VStr (String c EmptyString) :: chars s'
  end.

(** The items a [for] loop or a generator draws from [v]. *)
Definition py_iter (v : value) : outcome (list value) :=
  match v with
  | VList l => Ret l
  | VStr s => Ret (chars s)
  | VDict d => Ret (VStr <$> (map_to_list d).*1)
  | _ => Raise TypeError
  end.

(** [sub in s] on strings. *)
Fixpoint is_prefix (p s : string) : bool :=
  match p, s with
  | EmptyString, _ => true
  | String a p', String b s' => if Ascii.eqb a b then is_prefix p' s' else false
  | String _ _, EmptyString => false
  end.

Fixpoint is_substring (p s : string) : bool :=
  if is_prefix p s then true
  else match s with
       | EmptyString => false
       | String _ s' => is_substring p s'
       end.

(** [key in v] with a string key. *)
Definition contains (v : value) (key : string) : outcome bool :=
  match v with
  | VDict d => Ret (bool_decide (is_Some (d !! key)))
  | VList l =>
      Ret (existsb (fun x => match x with VStr s => String.eqb s key | _ => false end) l)
  | VStr s => Ret (is_substring key s)
  | _ => Raise TypeError
  end.

(** ** Regular expressions

    The fragment of [re] the bot uses: literal characters, [.], a character
    range, greedy [*] and [+] on one character, one capturing group;
    matching is anchored at the start of the string ([Pattern.match]) and
    explores alternatives in the order of a backtracking matcher, longest
    repetition first.  Characters are the code points below 256, on which
    ignoring case ([re.I]) is the folding of the ASCII letters for every
    letter of the bot's pattern. *)
Module Re.

Inductive atom :=
  | Lit (c : ascii)         (* a literal character *)
  | Dot                     (* [.]: any character except a newline *)
  | Range (lo hi : ascii).  (* [[lo-hi]] *)

Inductive item :=
  | One (a : atom)
  | Star (a : atom)         (* [a*], greedy *)
  | Plus (a : atom)         (* [a+], greedy *)
  | Open                    (* [(] of group 1 *)
  | Close.                  (* [)] of group 1 *)

Definition code (c : ascii) : N := N_of_ascii c.

Definition between (lo hi c : ascii) : bool :=
  ((code lo <=? code c) && (code c <=? code hi))%N.

Definition lower (c : ascii) : ascii :=
  if between "A" "Z" c then ascii_of_N (code c + 32) else c.

Definition upper (c : ascii) : ascii :=
  if between "a" "z" c then ascii_of_N (code c - 32) else c.

(** Does the atom accept the character, under [re.I]? *)
Definition accepts (a : atom) (c : ascii) : bool :=
  match a with
  | Lit x => Ascii.eqb (lower x) (lower c)
  | Dot => negb (Ascii.eqb c "010")
  | Range lo hi => between lo hi c || between lo hi (lower c) || between lo hi (upper c)
  end.

(** The state of the capture: where group 1 was opened (the text that
    remained there), and its text once it is closed. *)
Record caps := { start1 : option string; group1 : option string }.

Definition no_caps : caps := {| start1 := None; group1 := None |}.

Definition open_group (st : caps) (s : string) : caps :=
  {| start1 := Some s; group1 := group1 st |}.

Definition close_group (st : caps) (s : string) : caps :=
  {| start1 := start1 st;
     group1 :=
       match start1 st with
       | Some s0 => Some (substring 0 (String.length s0 - String.length s) s0)
       | None => group1 st
       end |}.

(** Greedy repetition: take one more character when the atom accepts it,
    and give characters back while the rest of the pattern [k] fails. *)
Fixpoint greedy (a : atom) (k : string -> option caps) (s : string) : option caps :=
  match s with
  | String c s' =>
      if accepts a c then
        match greedy a k s' with
        | Some r => Some r
        | None => k s
        end
      else k s
  | EmptyString => k s
  end.

Fixpoint run (p : list item) (st : caps) (s : string) : option caps :=
  match p with
  | [] => Some st
  | One a :: p' =>
      match s with
      | String c s' => if accepts a c then run p' st s' else None
      | EmptyString => None
      end
  | Star a :: p' => greedy a (run p' st) s
  | Plus a :: p' =>
      match s with
      | String c s' => if accepts a c then greedy a (run p' st) s' else None
      | EmptyString => None
      end
  | Open :: p' => run p' (open_group st s) s
  | Close :: p' => run p' (close_group st s) s
  end.

(** [pattern.match(s)] *)
Definition re_match (p : list item) (s : string) : option caps :=
  run p no_caps s.

Fixpoint lits (s : string) : list item :=
  match s with
  | EmptyString => []
  | String c s' => One (Lit c) :: lits s'
  end.

End Re.

(** [int(s)] on the strings the bot converts, which are matches of
    [[0-9]+]: a non-empty string of decimal digits is its value, anything
    else is taken as a [ValueError].  The limit some interpreters put on
    the number of digits is not modelled. *)
Definition digit_val (c : ascii) : option Z :=
  if Re.between "0" "9" c then Some (Z.of_N (Re.code c) - 48) else None.

Fixpoint int_acc (s : string) (acc : Z) : option Z :=
  match s with
  | EmptyString => Some acc
  | String c s' =>
      match digit_val c with
      | Some d => int_acc s' (10 * acc + d)
      | None => None
      end
  end.

Definition py_int (s : string) : outcome Z :=
  match s with
  | EmptyString => Raise ValueError
  | String _ _ =>
      match int_acc s 0 with
      | Some z => Ret z
      | None => Raise ValueError
      end
  end.

(** [GUEST_LOGIN_LIMIT = re.compile(r'guest logins .* ([0-9]+) seconds\.', re.I)] *)
Definition GUEST_LOGIN_LIMIT : list Re.item :=
  Re.lits "guest logins " ++
  [Re.Star Re.Dot; Re.One (Re.Lit " "); Re.Open; Re.Plus (Re.Range "0" "9"); Re.Close] ++
  Re.lits " seconds" ++ [Re.One (Re.Lit ".")].

(** ** The user model ([cytube_bot/user.py]) *)

Module User.

Record t := mk {
  name : string;
  password : option string;
  rank : value;
  image : value;
  text : value;
  afk : value;
  muted : value;
  smuted : value;
  _ip : value;
  uncloaked_ip : value;
  aliases : value
}.

Section WithUncloak.

(** [util.uncloak_ip], of a module that is not part of the sources: a
    pure function of the raw ip. *)
Variable uncloak_ip : value -> value.

(** The [ip] property and its setter. *)
Definition ip (self : t) : value := _ip self.

Definition set_ip (ip : value) (self : t) : t :=
  {| name := name self; password := password self; rank := rank self;
     image := image self; text := text self;
     afk := afk self; muted := muted self; smuted := smuted self;
     _ip := ip;
     uncloaked_ip := match ip with
                     | VNone => VNone
                     | _ => uncloak_ip ip
                     end;
     aliases := aliases self |}.

(** The [profile] property and its setter. *)
Definition profile (self : t) : dict :=
  <["image" := image self]> (<["text" := text self]> ∅).

Definition set_profile (profile : option dict) (self : t) : t :=
  let profile := match profile with None => ∅ | Some p => p end in
  {| name := name self; password := password self; rank := rank self;
     image := dict_get profile "image" (VStr "");
     text := dict_get profile "text" (VStr "");
     afk := afk self; muted := muted self; smuted := smuted self;
     _ip := _ip self; uncloaked_ip := uncloaked_ip self;
     aliases := aliases self |}.

(** The [meta] property and its setter. *)
Definition meta (self : t) : dict :=
  <["afk" := afk self]> (<["muted" := muted self]> (<["smuted" := smuted self]>
    (<["ip" := ip self]> (<["aliases" := aliases self]> ∅)))).

Definition set_flags (afk muted smuted : value) (self : t) : t :=
  {| name := name self; password := password self; rank := rank self;
     image := image self; text := text self;
     afk := afk; muted := muted; smuted := smuted;
     _ip := _ip self; uncloaked_ip := uncloaked_ip self;
     aliases := aliases self |}.

Definition set_aliases (aliases : value) (self : t) : t :=
  {| name := name self; password := password self; rank := rank self;
     image := image self; text := text self;
     afk := afk self; muted := muted self; smuted := smuted self;
     _ip := _ip self; uncloaked_ip := uncloaked_ip self;
     aliases := aliases |}.

Definition set_meta (meta : option dict) (self : t) : t :=
  let meta := match meta with None => ∅ | Some m => m end in
  let self := set_flags (dict_get meta "afk" (VBool false))
                        (dict_get meta "muted" (VBool false))
                        (dict_get meta "smuted" (VBool false)) self in
  let self := set_ip (dict_get meta "ip" VNone) self in
  set_aliases (dict_get meta "aliases" (VList [])) self.

Definition set_name (name : string) (self : t) : t :=
  {| name := name; password := password self; rank := rank self;
     image := image self; text := text self;
     afk := afk self; muted := muted self; smuted := smuted self;
     _ip := _ip self; uncloaked_ip := uncloaked_ip self;
     aliases := aliases self |}.

Definition set_rank (rank : value) (self : t) : t :=
  {| name := name self; password := password self; rank := rank;
     image := image self; text := text self;
     afk := afk self; muted := muted self; smuted := smuted self;
     _ip := _ip self; uncloaked_ip := uncloaked_ip self;
     aliases := aliases self |}.

(** [update(name=None, rank=None, profile=None, meta=None)]: an argument
    that is [None] leaves its attributes alone. *)
Definition update (name : option string) (rank : value)
    (profile meta : option dict) (self : t) : t :=
  let self := match name with Some n => set_name n self | None => self end in
  let self := match rank with VNone => self | r => set_rank r self end in
  let self := match profile with Some p => set_profile (Some p) self | None => self end in
  match meta with Some m => set_meta (Some m) self | None => self end.

(** [User(name='', password=None, rank=-1, profile=None, meta=None)] *)
Definition __init__ (name : string) (password : option string) (rank : value)
    (profile meta : option dict) : t :=
  update None VNone profile meta
    {| name := name; password := password; rank := rank;
       image := VStr ""; text := VStr "";
       afk := VBool false; muted := VBool false; smuted := VBool false;
       _ip := VNone; uncloaked_ip := VNone;
       aliases := VList [] |}.

(** [__eq__]: users are compared by name, with a user or with a string. *)
Definition eq_user (self other : t) : bool := String.eqb (name self) (name other).

Definition eq_value (self : t) (other : value) : bool :=
  match other with
  | VStr s => String.eqb (name self) s
  | _ => false
  end.

End WithUncloak.

End User.

(** ** State, effects and the monad of the runtime *)

Inductive level := WARNING | ERROR.

(** Calls to the collaborators, in the order they are issued. *)
Inductive io :=
  | HttpGet (url : string)                               (* [self.get(url)] *)
  | Connect (server : option string)                     (* [self.socket_io(server)] *)
  | Emit (event : string) (data : value) (response : value)  (* [socket.emit] *)
  | Close                                                (* [socket.close()] *)
  | Sleep (delay : Z).                                   (* [asyncio.sleep(delay)] *)

(** What a collaborator answers to a call. *)
Inductive reply :=
  | Returns (v : value)
  | Throws (e : exn).

(** Computations over a state [S] that return, raise or stay suspended. *)
Definition M (S A : Type) : Type := S -> S * outcome A.

#[export] Instance M_ret {S} : MRet (M S) := fun A a s => (s, Ret a).

#[export] Instance M_bind {S} : MBind (M S) := fun A B f m s =>
  match m s with
  | (s', Ret a) => f a s'
  | (s', Raise e) => (s', Raise e)
  | (s', Blocked) => (s', Blocked)
  end.

Definition raise {S A} (e : exn) : M S A := fun s => (s, Raise e).

Definition gets {S A} (f : S -> A) : M S A := fun s => (s, Ret (f s)).

Definition modify {S} (f : S -> S) : M S unit := fun s => (f s, Ret tt).

(** The outcome of a pure operation, in the monad. *)
Definition pure {S A} (o : outcome A) : M S A := fun s => (s, o).

(** [try: m except <the exceptions catch accepts>: ...] *)
Definition try_except {S A} (m : M S A) (catch : exn -> option (M S A)) : M S A :=
  fun s =>
    match m s with
    | (s', Raise e) =>
        match catch e with
        | Some h => h s'
        | None => (s', Raise e)
        end
    | r => r
    end.

(** [try: m finally: fin].  A body that stays suspended never reaches the
    [finally] clause; an exception of the clause replaces the body's. *)
Definition try_finally {S A} (m : M S A) (fin : M S unit) : M S A :=
  fun s =>
    match m s with
    | (s', Blocked) => (s', Blocked)
    | (s', r) =>
        match fin s' with
        | (s'', Ret _) => (s'', r)
        | (s'', Raise e) => (s'', Raise e)
        | (s'', Blocked) => (s'', Blocked)
        end
    end.

(** The channel object.  Its class is not part of the sources; the bot
    reads its name and password, assigns plain attributes of the channel
    and of its playlist, and keeps references to user objects in [users]. *)
Module Channel.
Record t := mk {
  name : string;
  password : value;
  attrs : dict;
  playlist : dict;
  users : list nat
}.
End Channel.

(** The attributes of a [Bot], the handler registry apart (the collaborators
    [get], [socket_io] and [loop] and the response timeout, which is only
    handed to the transport, are left out). *)
Record Bot := {
  domain : string;
  channel : Channel.t;
  user : nat;                 (* a reference into [objs] *)
  user_count : Z;
  restart_on_error : bool;
  server : option string;
  socket : value              (* [VNone] while disconnected *)
}.

(** The bot with the objects it shares with its channel and with the
    outside: the [User] objects by reference, the records of the logger at
    warning and error level, the trace of calls to the collaborators and
    the replies they are still to give. *)
Record World := {
  bot : Bot;
  objs : nat -> User.t;
  log : list (level * string);
  trace : list io;
  inbox : list reply
}.

Definition with_bot (f : Bot -> Bot) (w : World) : World :=
  {| bot := f (bot w); objs := objs w; log := log w; trace := trace w; inbox := inbox w |}.

Definition with_objs (f : (nat -> User.t) -> nat -> User.t) (w : World) : World :=
  {| bot := bot w; objs := f (objs w); log := log w; trace := trace w; inbox := inbox w |}.

Definition set_server (srv : option string) : M World unit :=
  modify (with_bot (fun b =>
    {| domain := domain b; channel := channel b; user := user b;
       user_count := user_count b; restart_on_error := restart_on_error b;
       server := srv; socket := socket b |})).

Definition set_socket (sock : value) : M World unit :=
  modify (with_bot (fun b =>
    {| domain := domain b; channel := channel b; user := user b;
       user_count := user_count b; restart_on_error := restart_on_error b;
       server := server b; socket := sock |})).

Definition set_channel (ch : Channel.t) : M World unit :=
  modify (with_bot (fun b =>
    {| domain := domain b; channel := ch; user := user b;
       user_count := user_count b; restart_on_error := restart_on_error b;
       server := server b; socket := socket b |})).

(** In-place update of the object behind a reference. *)
Definition update_obj (l : nat) (f : User.t -> User.t) : M World unit :=
  modify (with_objs (fun o k => if decide (k = l) then f (o l) else o k)).

(** [self.user], dereferenced. *)
Definition self_user (w : World) : User.t := objs w (user (bot w)).

(** [self.logger.warning] and [self.logger.error]; the record keeps the
    level and the format string. *)
Definition logger (lvl : level) (fmt : string) : M World unit :=
  modify (fun w =>
    {| bot := bot w; objs := objs w; log := (log w ++ [(lvl, fmt)])%list;
       trace := trace w; inbox := inbox w |}).

(** A call to a collaborator: it is recorded, then answered by the next
    reply of the script. *)
Definition external (call : io) : M World value :=
  fun w =>
    let tr := (trace w ++ [call])%list in
    match inbox w with
    | [] =>
        ({| bot := bot w; objs := objs w; log := log w; trace := tr; inbox := [] |},
         Blocked)
    | Returns v :: rest =>
        ({| bot := bot w; objs := objs w; log := log w; trace := tr; inbox := rest |},
         Ret v)
    | Throws e :: rest =>
        ({| bot := bot w; objs := objs w; log := log w; trace := tr; inbox := rest |},
         Raise e)
    end.

(** [asyncio.sleep(delay)] *)
Definition sleep (delay : Z) : M World unit :=
  modify (fun w =>
    {| bot := bot w; objs := objs w; log := log w;
       trace := (trace w ++ [Sleep delay])%list; inbox := inbox w |}).

(** [self.socket.emit(event, data, response)]: without a session,
    [self.socket] is [None] and has no [emit]. *)
Definition emit (event : string) (data : value) (response : value) : M World value :=
  sock ← gets (fun w => socket (bot w));
  match sock with
  | VNone => raise (AttributeError "NoneType" "emit")
  | _ => external (Emit event data response)
  end.

(** ** Handlers and the registry *)

(** A handler reference: a bound method [self._on_<event>] of the bot, or a
    callable supplied from outside.  Two references are equal when they
    denote the same callable. *)
Inductive handler :=
  | Internal (event : string)
  | External (id : nat).

#[export] Instance handler_eq_dec : EqDecision handler.
Proof. solve_decision. Defined.

(** [self.handlers]: a [defaultdict(list)]. *)
Abbreviation registry := (gmap string (list handler)).

(** The list an event is bound to, [[]] when it has no entry. *)
Definition handlers_of (r : registry) (event : string) : list handler :=
  match r !! event with
  | Some hs => hs
  | None => []
  end.

(** [self.handlers[event]]: the lookup of a [defaultdict] creates the
    missing entry. *)
Definition touch (event : string) (r : registry) : registry :=
  <[event := handlers_of r event]> r.

(** [on(event, *handlers)] *)
Definition on (event : string) (hs : list handler) (r : registry) : registry :=
  let ev_handlers := handlers_of r event in
  <[event := foldl (fun acc h => if decide (h ∈ acc) then acc else (acc ++ [h])%list)
                   ev_handlers hs]> r.

(** [list.remove(x)]: drops the first occurrence, [None] when there is
    none ([ValueError]). *)
Fixpoint list_remove (h : handler) (l : list handler) : option (list handler) :=
  match l with
  | [] => None
  | x :: l' => if decide (x = h) then Some l' else cons x <$> list_remove h l'
  end.

(** [off(event, *handlers)] *)
Definition off (event : string) (hs : list handler) (r : registry) : registry :=
  let ev_handlers := handlers_of r event in
  <[event := foldl (fun acc h => match list_remove h acc with
                                 | Some acc' => acc'
                                 | None => acc
                                 end)
                   ev_handlers hs]> r.

(** The names the attribute lookup [self.<name>] finds on a [Bot]: class
    attributes, attributes set by [__init__], and methods (what every
    object has apart). *)
Definition Bot_attributes : list string :=
  ["logger"; "SOCKET_CONFIG_URL"; "SOCKET_IO_URL"; "GUEST_LOGIN_LIMIT"; "MUTED";
   "get"; "socket_io"; "response_timeout"; "restart_on_error"; "domain";
   "channel"; "user"; "user_count"; "loop"; "server"; "socket"; "handlers";
   "_on_rank"; "_on_setMotd"; "_on_channelCSSJS"; "_on_channelOpts";
   "_on_setPermissions"; "_on_emoteList"; "_on_drinkCount"; "_on_usercount";
   "_on_needPassword"; "_on_noflood"; "_on_kick"; "_add_user"; "_on_userlist";
   "_on_addUser"; "_on_userLeave"; "_on_setUserMeta"; "_on_setPlaylistMeta";
   "_on_mediaUpdate"; "_on_setCurrent"; "_on_queue"; "_on_delete"; "_on_setTemp";
   "_on_playlist"; "get_socket_config"; "disconnect"; "connect"; "login"; "run";
   "on"; "off"; "trigger"; "chat_message"].

(** [self.<name>]: raises [AttributeError] for a name the bot does not have. *)
Definition self_attr (name : string) : M World unit :=
  if decide (name ∈ Bot_attributes) then mret tt
  else raise (AttributeError "Bot" name).

(** The events with a method [_on_<event>], in the order of [dir(self)]. *)
Definition internal_events : list string :=
  ["addUser"; "channelCSSJS"; "channelOpts"; "delete"; "drinkCount"; "emoteList";
   "kick"; "mediaUpdate"; "needPassword"; "noflood"; "playlist"; "queue"; "rank";
   "setCurrent"; "setMotd"; "setPermissions"; "setPlaylistMeta"; "setTemp";
   "setUserMeta"; "userLeave"; "usercount"; "userlist"].

(** [self.channel.<attr> = v] and [self.channel.playlist.<attr> = v] *)
Definition set_channel_attr (attr : string) (v : value) : M World unit :=
  ch ← gets (fun w => channel (bot w));
  set_channel
    {| Channel.name := Channel.name ch; Channel.password := Channel.password ch;
       Channel.attrs := <[attr := v]> (Channel.attrs ch);
       Channel.playlist := Channel.playlist ch; Channel.users := Channel.users ch |}.

Definition set_playlist_attr (attr : string) (v : value) : M World unit :=
  ch ← gets (fun w => channel (bot w));
  set_channel
    {| Channel.name := Channel.name ch; Channel.password := Channel.password ch;
       Channel.attrs := Channel.attrs ch;
       Channel.playlist := <[attr := v]> (Channel.playlist ch);
       Channel.users := Channel.users ch |}.

(** A call of a handler by [trigger]: the handler, the arguments it was
    given, and what the call did. *)
Record invocation := {
  inv_handler : handler;
  inv_event : string;
  inv_data : value;
  inv_result : outcome value
}.

(** The first reference of [refs] whose object compares equal to [name]. *)
Fixpoint find_user (objs : nat -> User.t) (name : value) (refs : list nat) : option nat :=
  match refs with
  | [] => None
  | l :: refs' => if User.eq_value (objs l) name then Some l else find_user objs name refs'
  end.

Section Runtime.

(** [util.uncloak_ip] *)
Variable uncloak_ip : value -> value.
(** [json.loads] *)
Variable json_loads : value -> outcome value.
(** [str(v)] for a value that is not a string *)
Variable str_other : value -> string.
(** [channel.check_permission(action, user)] *)
Variable check_permission : Channel.t -> string -> User.t -> outcome unit.
(** The handlers that call methods of the channel and of its playlist
    ([_on_userlist], [_on_addUser], [_on_userLeave], [_on_queue],
    [_on_delete], [_on_setTemp], [_on_playlist]), by event name. *)
Variable collaborator_handler : string -> value -> M World value.
(** The callables registered from outside.  A handler acts on the state
    of the bot, the registry apart: handlers that register or remove
    handlers while an event is dispatched are outside the model. *)
Variable external_handler : nat -> string -> value -> M World value.

Definition py_str (v : value) : string :=
  match v with
  | VStr s => s
  | _ => str_other v
  end.

(** Modelled from the spec: [Channel.update_user(name, meta=meta)], of the
    channel class, which is not part of the sources.  Users are looked up
    by name in the channel's collection and updated in place; the keyword
    is handed to [User.update].  A name that is not in the collection is
    reported with [ValueError], as [remove_user] reports it. *)
Definition Channel_update_user (name meta : value) : M World unit :=
  w ← gets id;
  match find_user (objs w) name (Channel.users (channel (bot w))) with
  | None => raise ValueError
  | Some l =>
      match meta with
      | VNone => mret tt
      | VDict m => update_obj l (User.update uncloak_ip None VNone None (Some m))
      | _ => raise (AttributeError "object" "get")
      end
  end.

(** *** The handlers bound at construction *)

Definition _on_rank (data : value) : M World value :=
  l ← gets (fun w => user (bot w));
  update_obj l (User.set_rank data);;
  mret VNone.

Definition _on_setMotd (data : value) : M World value :=
  set_channel_attr "motd" data;; mret VNone.

Definition _on_channelCSSJS (data : value) : M World value :=
  css ← pure (py_get data "css" (VStr ""));
  set_channel_attr "css" css;;
  js ← pure (py_get data "js" (VStr ""));
  set_channel_attr "js" js;;
  mret VNone.

Definition _on_channelOpts (data : value) : M World value :=
  set_channel_attr "options" data;; mret VNone.

Definition _on_setPermissions (data : value) : M World value :=
  set_channel_attr "permissions" data;; mret VNone.

Definition _on_emoteList (data : value) : M World value :=
  set_channel_attr "emotes" data;; mret VNone.

Definition _on_drinkCount (data : value) : M World value :=
  set_channel_attr "drink_count" data;; mret VNone.

Definition _on_usercount (data : value) : M World value :=
  set_channel_attr "user_count" data;; mret VNone.

Definition _on_needPassword (data : value) : M World value :=
  if truthy data then raise (LoginError (VStr "invalid channel password"))
  else mret VNone.

(** [self.loger.error('noflood: %s', data)] *)
Definition _on_noflood (data : value) : M World value :=
  self_attr "loger";;
  logger ERROR "noflood: %s";;
  mret VNone.

Definition _on_kick (data : value) : M World value :=
  raise (Kicked data).

Definition _on_setUserMeta (data : value) : M World value :=
  name ← pure (subscript data "name");
  meta ← pure (subscript data "meta");
  Channel_update_user name meta;;
  mret VNone.

Definition _on_setPlaylistMeta (data : value) : M World value :=
  t ← pure (py_get data "rawTime" (VInt 0));
  set_playlist_attr "time" t;;
  mret VNone.

Definition _on_mediaUpdate (data : value) : M World value :=
  p ← pure (py_get data "paused" (VBool true));
  set_playlist_attr "paused" p;;
  t ← pure (py_get data "currentTime" (VInt 0));
  set_playlist_attr "current_time" t;;
  mret VNone.

Definition _on_setCurrent (data : value) : M World value :=
  set_playlist_attr "current" data;; mret VNone.

(** [getattr(self, '_on_' + event)(event, data)] *)
Definition internal_handler (event : string) (data : value) : M World value :=
  match event with
  | "rank" => _on_rank data
  | "setMotd" => _on_setMotd data
  | "channelCSSJS" => _on_channelCSSJS data
  | "channelOpts" => _on_channelOpts data
  | "setPermissions" => _on_setPermissions data
  | "emoteList" => _on_emoteList data
  | "drinkCount" => _on_drinkCount data
  | "usercount" => _on_usercount data
  | "needPassword" => _on_needPassword data
  | "noflood" => _on_noflood data
  | "kick" => _on_kick data
  | "setUserMeta" => _on_setUserMeta data
  | "setPlaylistMeta" => _on_setPlaylistMeta data
  | "mediaUpdate" => _on_mediaUpdate data
  | "setCurrent" => _on_setCurrent data
  | _ => collaborator_handler event data
  end.

(** [handler(event, data)] *)
Definition call (h : handler) (event : string) (data : value) : M World value :=
  match h with
  | Internal name => internal_handler name data
  | External id => external_handler id event data
  end.

(** *** Dispatch *)

(** The loop of [trigger] over the handlers of the event: the handlers
    are called in order, each on the state the previous one left; a
    truthy return value, an exception or a suspension ends the loop.  The
    first component records the calls that were made. *)
Fixpoint dispatch (hs : list handler) (event : string) (data : value) (w : World)
    : list invocation * (World * outcome unit) :=
  match hs with
  | [] => ([], (w, Ret tt))
  | h :: hs' =>
      let '(w', res) := call h event data w in
      let i := {| inv_handler := h; inv_event := event; inv_data := data;
                  inv_result := res |} in
      match res with
      | Ret stop =>
          if truthy stop then ([i], (w', Ret tt))
          else let '(calls, r) := dispatch hs' event data w' in (i :: calls, r)
      | Raise e => ([i], (w', Raise e))
      | Blocked => ([i], (w', Blocked))
      end
  end.

(** The bot as the methods that use the registry see it. *)
Definition Runtime : Type := registry * World.

(** [trigger(event, data)], with the calls it made. *)
Definition trigger_calls (event : string) (data : value) (rt : Runtime)
    : list invocation * (Runtime * outcome unit) :=
  let '(r, w) := rt in
  let '(calls, (w', o)) := dispatch (handlers_of r event) event data w in
  (calls, ((touch event r, w'), o)).

Definition trigger (event : string) (data : value) : M Runtime unit :=
  fun rt => snd (trigger_calls event data rt).

(** A method that leaves the registry alone, run on the whole bot. *)
Definition on_world {A} (m : M World A) : M Runtime A :=
  fun rt => let '(w', o) := m (snd rt) in ((fst rt, w'), o).

(** *** Connection *)

(** The generator [srv['url'] for srv in servers if srv['secure']], drawn
    once with [next]. *)
Fixpoint next_secure (servers : list value) : outcome value :=
  match servers with
  | [] => Raise StopIteration
  | srv :: rest =>
      match subscript srv "secure" with
      | Ret s => if truthy s then subscript srv "url" else next_secure rest
      | Raise e => Raise e
      | Blocked => Blocked
      end
  end.

(** The generator [srv['url'] for srv in servers], drawn once. *)
Definition next_any (servers : list value) : outcome value :=
  match servers with
  | [] => Raise StopIteration
  | srv :: _ => subscript srv "url"
  end.

(** [except (KeyError, StopIteration)] *)
Definition key_or_stop {A} (h : M World A) (e : exn) : option (M World A) :=
  match e with
  | KeyError _ | StopIteration => Some h
  | _ => None
  end.

Definition get_socket_config : M World unit :=
  b ← gets bot;
  let url := domain b ++ "/socketconfig/" ++ Channel.name (channel b) ++ ".json" in
  let url := if is_prefix "http" url then url else "https://" ++ url in
  conf ← external (HttpGet url);
  conf ← pure (json_loads conf);
  has_error ← pure (contains conf "error");
  if has_error : bool then
    err ← pure (subscript conf "error");
    raise (SocketConfigError [err])
  else
    server ←
      try_except
        (servers ← pure (subscript conf "servers");
         items ← pure (py_iter servers);
         pure (next_secure items))
        (key_or_stop
           (try_except
              (servers ← pure (subscript conf "servers");
               items ← pure (py_iter servers);
               pure (next_any items))
              (key_or_stop
                 (raise (SocketConfigError
                           [VStr "no servers in socket config"; conf])))));
    set_server (Some (py_str server ++ "/socket.io/")).

Definition disconnect : M World unit :=
  sock ← gets (fun w => socket (bot w));
  match sock with
  | VNone => mret tt
  | _ =>
      try_finally
        (try_except
           (external Close;; mret tt)
           (fun ex =>
              if is_Exception ex
              then Some (logger ERROR "socket.close(): %s: %r";; raise ex)
              else None))
        (set_socket VNone;;
         l ← gets (fun w => user (bot w));
         update_obj l (User.set_rank (VInt (-1))))
  end.

Definition connect : M World unit :=
  disconnect;;
  srv ← gets (fun w => server (bot w));
  match srv with
  | None => get_socket_config
  | Some _ => mret tt
  end;;
  srv ← gets (fun w => server (bot w));
  sock ← external (Connect srv);
  set_socket sock.

(** *** Login *)

Inductive loop_step := Break | Continue.

Definition opt_str (o : option string) : value :=
  match o with
  | Some s => VStr s
  | None => VNone
  end.

(** One turn of the [while True] loop of [login]. *)
Definition login_attempt : M World loop_step :=
  u ← gets self_user;
  res ← emit "login"
          (VDict (<["name" := VStr (User.name u)]>
                    (<["pw" := opt_str (User.password u)]> ∅)))
          (VBool true);
  success ← pure (py_get res "success" (VBool false));
  if truthy success then mret Break
  else
    err ← pure (py_get res "error" (VStr "<no error message>"));
    logger ERROR "login error: %s";;
    m ← match err with
        | VStr s => mret (Re.re_match GUEST_LOGIN_LIMIT s)
        | _ => raise TypeError
        end;
    match m with
    | Some c =>
        try_except
          (n ← match Re.group1 c with
               | Some g => pure (py_int g)
               | None => raise TypeError
               end;
           let delay := Z.max n 1 in
           logger WARNING "sleep(%d)";;
           sleep delay)
          (fun ex => match ex with
                     | ValueError => Some (raise (LoginError err))
                     | _ => None
                     end);;
        mret Continue
    | None => raise (LoginError err)
    end.

(** The [while True] loop, for at most [fuel] turns. *)
Fixpoint login_loop_for (fuel : nat) : M World unit :=
  match fuel with
  | O => pure Blocked
  | S fuel' =>
      s ← login_attempt;
      match s with
      | Break => mret tt
      | Continue => login_loop_for fuel'
      end
  end.

(** The loop: every turn takes a reply from the script, so one turn more
    than the script has replies is all it can make. *)
Definition login_loop : M World unit :=
  fun w => login_loop_for (S (List.length (inbox w))) w.

Definition login : M Runtime unit :=
  on_world connect;;
  ch ← gets (fun rt : Runtime => channel (bot (snd rt)));
  res ← on_world (emit "joinChannel"
                    (VDict (<["name" := VStr (Channel.name ch)]>
                              (<["pw" := Channel.password ch]> ∅)))
                    (VStr "needPassword"));
  (if truthy res then raise (LoginError (VStr "invalid channel password"))
   else mret tt);;
  u ← gets (fun rt : Runtime => self_user (snd rt));
  (if String.eqb (User.name u) "" then on_world (logger WARNING "no user")
   else on_world login_loop);;
  trigger "login" (VObj "bot").

(** *** Chat *)

Definition chat_message (msg to meta : value) : M World unit :=
  w ← gets id;
  pure (check_permission (channel (bot w)) "chat" (self_user w));;
  let data : dict :=
    <["msg" := msg]> (<["meta" := if truthy meta then meta else VDict ∅]> ∅) in
  '(ev, data) ←
    match to with
    | VNone =>
        u ← gets self_user;
        if truthy (User.muted u) || truthy (User.smuted u)
        then raise (ChannelPermissionError (VStr "muted"))
        else mret ("chatMsg", data)
    | _ => mret ("pm", <["to" := to]> data)
    end;
  res ← emit ev (VDict data) (VStr "noflood");
  if truthy res then
    logger ERROR "chat_message: noflood: %s";;
    m ← pure (py_get res "msg" (VStr "noflood"));
    raise (ChannelPermissionError m)
  else mret tt.

(** *** Construction *)

(** [Bot(domain, channel, user, restart_on_error)]: the attributes, and
    the registry with every method [_on_<event>] bound to its event.
    [user] refers to the user object given, or to a fresh [User()]. *)
Definition Bot_init (domain : string) (channel : Channel.t) (user : nat)
    (restart_on_error : bool) : registry * Bot :=
  (foldl (fun r ev => on ev [Internal ev] r) ∅ internal_events,
   {| domain := domain; channel := channel; user := user; user_count := 0;
      restart_on_error := restart_on_error; server := None; socket := VNone |}).

End Runtime.

(** ** The run loop *)

(** [self.socket.recv()]: the next event of the transport, taken from the
    script of replies.  The trace lists what the bot asks of its
    collaborators; a receive asks nothing and is not listed. *)
Definition recv : M World value :=
  sock ← gets (fun w => socket (bot w));
  match sock with
  | VNone => raise (AttributeError "NoneType" "recv")
  | _ =>
      fun w =>
        match inbox w with
        | [] => (w, Blocked)
        | Returns v :: rest =>
            ({| bot := bot w; objs := objs w; log := log w; trace := trace w;
                inbox := rest |}, Ret v)
        | Throws e :: rest =>
            ({| bot := bot w; objs := objs w; log := log w; trace := trace w;
                inbox := rest |}, Raise e)
        end
  end.

(** [ev, data = v] *)
Definition unpack_pair (v : value) : outcome (value * value) :=
  match py_iter v with
  | Ret [ev; data] => Ret (ev, data)
  | Ret _ => Raise ValueError
  | Raise e => Raise e
  | Blocked => Blocked
  end.

(** [asyncio.CancelledError], which does not derive from [Exception]. *)
Definition CancelledError : exn := BaseException "CancelledError".

(** [isinstance(ex, asyncio.CancelledError)] *)
Definition is_cancelled (ex : exn) : bool :=
  match ex with
  | BaseException name => String.eqb name "CancelledError"
  | _ => false
  end.

Section RunLoop.

Variable uncloak_ip : value -> value.
Variable json_loads : value -> outcome value.
Variable str_other : value -> string.
Variable collaborator_handler : string -> value -> M World value.
Variable external_handler : nat -> string -> value -> M World value.
(** [socket.retry_delay], of the session object *)
Variable retry_delay : value -> Z.

(** [trigger(ev, data)] with the event as it was received.  The registry
    is keyed by strings: a list or an object of the transport's data
    cannot be a key at all, and another value is a key that has no
    handlers. *)
Definition trigger_value (ev data : value) : M Runtime unit :=
  match ev with
  | VStr event => trigger uncloak_ip collaborator_handler external_handler event data
  | VList _ | VDict _ => raise TypeError
  | _ => mret tt
  end.

(** One turn of the [while True] loop of [run]. *)
Definition run_turn : M Runtime loop_step :=
  got ← on_world
          (try_except
             (v ← recv;
              p ← pure (unpack_pair v);
              mret (Some p))
             (fun ex => match ex with
                        | SocketIOError _ => Some (mret None)
                        | _ => None
                        end));
  match got with
  | Some (ev, data) => trigger_value ev data;; mret Continue
  | None =>
      on_world (logger ERROR "network error: %r");;
      restart ← gets (fun rt : Runtime => restart_on_error (bot (snd rt)));
      if negb restart then mret Break
      else
        on_world (logger ERROR "restarting");;
        sock ← gets (fun rt : Runtime => socket (bot (snd rt)));
        on_world (sleep (retry_delay sock));;
        login uncloak_ip json_loads str_other collaborator_handler external_handler;;
        mret Continue
  end.

(** The loop, for at most [fuel] turns. *)
Fixpoint run_loop_for (fuel : nat) : M Runtime unit :=
  match fuel with
  | O => pure Blocked
  | S fuel' =>
      s ← run_turn;
      match s with
      | Break => mret tt
      | Continue => run_loop_for fuel'
      end
  end.

(** [run()], with at most [fuel] turns of its loop. *)
Definition run_for (fuel : nat) : M Runtime unit :=
  try_finally
    (try_except
       (login uncloak_ip json_loads str_other collaborator_handler external_handler;;
        run_loop_for fuel)
       (fun ex => if is_cancelled ex then Some (mret tt) else None))
    (on_world disconnect).

End RunLoop.

(** ** Sample collaborators and states

    Concrete collaborators and a concrete bot, on which the statements
    below are exercised. *)
Module Sample.

Definition uncloak_ip (ip : value) : value := VList [ip].

Definition conf_secure : dict :=
  <["servers" := VList [VDict (<["url" := VStr "A"]> (<["secure" := VBool false]> ∅));
                        VDict (<["url" := VStr "B"]> (<["secure" := VBool true]> ∅))]]> ∅.

Definition conf_plain : dict :=
  <["servers" := VList [VDict (<["url" := VStr "A"]> (<["secure" := VBool false]> ∅))]]> ∅.

Definition conf_empty : dict := <["servers" := VList []]> ∅.

Definition conf_error : dict := <["error" := VStr "no such channel"]> ∅.

(** The parser, on the texts of the samples. *)
Definition json_loads (text : value) : outcome value :=
  match text with
  | VStr "secure" => Ret (VDict conf_secure)
  | VStr "plain" => Ret (VDict conf_plain)
  | VStr "empty" => Ret (VDict conf_empty)
  | VStr "none" => Ret (VDict ∅)
  | VStr "error" => Ret (VDict conf_error)
  | _ => Raise ValueError
  end.

Definition str_other (v : value) : string := "<object>".

Definition check_permission (ch : Channel.t) (action : string) (u : User.t)
    : outcome unit := Ret tt.

Definition collaborator_handler (event : string) (data : value) : M World value :=
  mret VNone.

(** The callable 0 asks to stop the dispatch, the others do not. *)
Definition external_handler (id : nat) (event : string) (data : value)
    : M World value :=
  match id with
  | O => mret (VBool true)
  | S _ => mret VNone
  end.

Definition lobby : Channel.t :=
  {| Channel.name := "lobby"; Channel.password := VNone; Channel.attrs := ∅;
     Channel.playlist := ∅; Channel.users := [0%nat; 1%nat] |}.

(** The object 0 is the bot's user, muted; the object 1 another user. *)
Definition users (l : nat) : User.t :=
  match l with
  | O => User.__init__ uncloak_ip "bot" None (VInt 1) None
           (Some (<["muted" := VBool true]> (<["ip" := VStr "abc"]> ∅)))
  | S _ => User.__init__ uncloak_ip "ann" None (VInt 0) None None
  end.

Definition handlers : registry :=
  fst (Bot_init "example.org" lobby 0 true).

(** The bot as constructed, before it connects. *)
Definition fresh (replies : list reply) : World :=
  {| bot := snd (Bot_init "example.org" lobby 0 true);
     objs := users; log := []; trace := []; inbox := replies |}.

(** A connected bot whose collaborators answer with [replies]. *)
Definition world (replies : list reply) : World :=
  let b := snd (Bot_init "example.org" lobby 0 true) in
  {| bot := {| domain := domain b; channel := channel b; user := user b;
               user_count := user_count b;
               restart_on_error := restart_on_error b;
               server := Some "B/socket.io/"; socket := VObj "session" |};
     objs := users; log := []; trace := []; inbox := replies |}.

End Sample.

(** * Vocabulary of the statements *)

(** The invariant that ties [uncloaked_ip] to [ip]. *)
Definition ip_invariant (uncloak_ip : value -> value) (u : User.t) : Prop :=
  (User.uncloaked_ip u = VNone <-> User.ip u = VNone) /\
  (User.ip u <> VNone -> User.uncloaked_ip u = uncloak_ip (User.ip u)).

(** The users that construction followed by assignments of [ip], [meta],
    [profile], [name] and [rank] and by calls of [update] can produce. *)
Inductive user_reachable (uncloak_ip : value -> value) : User.t -> Prop :=
  | reach_init name password rank profile meta :
      user_reachable uncloak_ip (User.__init__ uncloak_ip name password rank profile meta)
  | reach_ip ip u :
      user_reachable uncloak_ip u -> user_reachable uncloak_ip (User.set_ip uncloak_ip ip u)
  | reach_meta meta u :
      user_reachable uncloak_ip u -> user_reachable uncloak_ip (User.set_meta uncloak_ip meta u)
  | reach_profile profile u :
      user_reachable uncloak_ip u -> user_reachable uncloak_ip (User.set_profile profile u)
  | reach_name name u :
      user_reachable uncloak_ip u -> user_reachable uncloak_ip (User.set_name name u)
  | reach_rank rank u :
      user_reachable uncloak_ip u -> user_reachable uncloak_ip (User.set_rank rank u)
  | reach_update name rank profile meta u :
      user_reachable uncloak_ip u ->
      user_reachable uncloak_ip (User.update uncloak_ip name rank profile meta u).

(** The registries that [on], [off] and the lookups of [trigger] make of
    the empty one: that of a bot, at any time. *)
Inductive registry_built : registry -> Prop :=
  | built_empty : registry_built ∅
  | built_on event hs r : registry_built r -> registry_built (on event hs r)
  | built_off event hs r : registry_built r -> registry_built (off event hs r)
  | built_touch event r : registry_built r -> registry_built (touch event r).

(** Does the result of a handler end the dispatch?  A truthy return value
    does, and so does an exception or a suspension. *)
Definition stops (res : outcome value) : bool :=
  match res with
  | Ret v => truthy v
  | _ => true
  end.

(** How many times [h] occurs in a list of handlers, and how many of the
    calls of a dispatch are calls of [h]. *)
Definition occurrences (h : handler) (hs : list handler) : nat :=
  List.length (filter (fun x => x = h) hs).


(** An entry of the server list, as the socket configuration has it: an
    object with a url and a secure flag. *)
Definition is_server_entry (srv : value) : Prop :=
  exists (d : dict) url secure,
    srv = VDict d /\ d !! "url" = Some url /\ d !! "secure" = Some secure.

Definition entry_secure (srv : value) : bool :=
  match subscript srv "secure" with
  | Ret s => truthy s
  | _ => false
  end.

Definition entry_url (srv : value) : value :=
  match subscript srv "url" with
  | Ret u => u
  | _ => VNone
  end.

(** The url the specification selects: that of the first entry flagged
    secure, else that of the first entry, if there is one. *)
Definition preferred_url (servers : list value) : option value :=
  match List.find entry_secure servers with
  | Some srv => Some (entry_url srv)
  | None =>
      match servers with
      | srv :: _ => Some (entry_url srv)
      | [] => None
      end
  end.

(** Every character of the string satisfies the test. *)
Fixpoint all_chars (P : ascii -> bool) (s : string) : bool :=
  match s with
  | EmptyString => true
  | String c s' => P c && all_chars P s'
  end.

(** An item that leaves the capture alone. *)
Definition plain (i : Re.item) : bool :=
  match i with
  | Re.Open | Re.Close => false
  | _ => true
  end.

(** The payload of the [login] request. *)
Definition login_request (w : World) : io :=
  Emit "login"
    (VDict (<["name" := VStr (User.name (self_user w))]>
              (<["pw" := opt_str (User.password (self_user w))]> ∅)))
    (VBool true).

(** The state after calls to collaborators that consumed a reply, and
    after records of the logger. *)
Definition advance (calls : list io) (records : list (level * string))
    (rest : list reply) (w : World) : World :=
  {| bot := bot w; objs := objs w; log := (log w ++ records)%list;
     trace := (trace w ++ calls)%list; inbox := rest |}.

(** Computations that take no reply from the script. *)
Definition keeps_inbox {A} (m : M World A) : Prop :=
  forall w, inbox (fst (m w)) = inbox w.

(** The bot once [login] has connected and joined the channel. *)
Definition joined (sock : value) (srv : string) (rest : list reply) (w : World) : World :=
  {| bot := {| domain := domain (bot w); channel := channel (bot w);
               user := user (bot w); user_count := user_count (bot w);
               restart_on_error := restart_on_error (bot w);
               server := server (bot w); socket := sock |};
     objs := objs w; log := log w;
     trace := (trace w ++
               [Connect (Some srv);
                Emit "joinChannel"
                  (VDict (<["name" := VStr (Channel.name (channel (bot w)))]>
                            (<["pw" := Channel.password (channel (bot w))]> ∅)))
                  (VStr "needPassword")])%list;
     inbox := rest |}.

(** The address [get_socket_config] fetches. *)
Definition config_url (b : Bot) : string :=
  let url := domain b ++ "/socketconfig/" ++ Channel.name (channel b) ++ ".json" in
  if is_prefix "http" url then url else "https://" ++ url.

(** The bot with another transport handle. *)
Definition with_socket (sock : value) (b : Bot) : Bot :=
  {| domain := domain b; channel := channel b; user := user b;
     user_count := user_count b; restart_on_error := restart_on_error b;
     server := server b; socket := sock |}.

(** The bot with another server. *)
Definition with_server (srv : option string) (b : Bot) : Bot :=
  {| domain := domain b; channel := channel b; user := user b;
     user_count := user_count b; restart_on_error := restart_on_error b;
     server := srv; socket := socket b |}.

(** Computations whose calls to the collaborators all satisfy [P]. *)
Definition issues (P : io -> Prop) {A} (m : M World A) : Prop :=
  forall w, exists calls,
    trace (fst (m w)) = (trace w ++ calls)%list /\ Forall P calls.

(** The calls of the loop of [login]: [login] requests, and sleeps of a
    second or more. *)
Definition login_call (c : io) : Prop :=
  match c with
  | Emit "login" _ (VBool true) => True
  | Sleep delay => 1 <= delay
  | _ => False
  end.

(** A failure acknowledgement of a [login] request that asks to wait
    [n] seconds. *)
Definition throttle_ack (ack : value) (n : Z) : Prop :=
  exists (d : dict) err c g,
    ack = VDict d /\
    truthy (dict_get d "success" (VBool false)) = false /\
    dict_get d "error" (VStr "<no error message>") = VStr err /\
    Re.re_match GUEST_LOGIN_LIMIT err = Some c /\
    Re.group1 c = Some g /\ py_int g = Ret n.

(** The event and the payload of a chat message. *)
Definition chat_event (to : value) : string :=
  match to with
  | VNone => "chatMsg"
  | _ => "pm"
  end.

Definition chat_payload (msg to meta : value) : value :=
  let data : dict :=
    <["msg" := msg]> (<["meta" := if truthy meta then meta else VDict ∅]> ∅) in
  match to with
  | VNone => VDict data
  | _ => VDict (<["to" := to]> data)
  end.

(** Computations that leave the state as it is. *)
Definition silent {A} (m : M World A) : Prop :=
  forall w, fst (m w) = w.

(** The sample bot disconnected, with the server it resolved. *)
Definition parked (replies : list reply) : World :=
  {| bot := with_socket VNone (bot (Sample.world []));
     objs := Sample.users; log := []; trace := []; inbox := replies |}.

(** The sample bot disconnected, with a user that has no name. *)
Definition anonymous (replies : list reply) : World :=
  {| bot := with_socket VNone (bot (Sample.world []));
     objs := fun _ => User.__init__ Sample.uncloak_ip "" None (VInt (-1)) None None;
     log := []; trace := []; inbox := replies |}.

(** The state with other replies to come. *)
Definition with_inbox (replies : list reply) (w : World) : World :=
  {| bot := bot w; objs := objs w; log := log w; trace := trace w;
     inbox := replies |}.

(** What [run] makes of the outcome of its loop: a cancellation is
    swallowed, and the bot disconnects in every case. *)
Definition finish (rt : Runtime) (o : outcome unit) : Runtime * outcome unit :=
  match o with
  | Blocked => (rt, Blocked)
  | _ =>
      let o' := match o with
                | Raise e => if is_cancelled e then Ret tt else Raise e
                | _ => o
                end in
      match disconnect (snd rt) with
      | (w', Ret _) => ((fst rt, w'), o')
      | (w', Raise e) => ((fst rt, w'), Raise e)
      | (w', Blocked) => ((fst rt, w'), Blocked)
      end
  end.

(** The sample bot after a login: it has connected, joined the channel
    and authenticated, and [replies] are still to come. *)
Definition sample_login (replies : list reply) : Runtime * outcome unit :=
  login Sample.uncloak_ip Sample.json_loads Sample.str_other
    Sample.collaborator_handler Sample.external_handler
    (Sample.handlers,
     parked (Returns (VObj "s2") :: Returns VNone ::
             Returns (VDict (<["success" := VBool true]> ∅)) :: replies)).

(** [run] on the sample bot, whose session asks to wait 5 seconds before
    a new attempt. *)
Definition sample_run (fuel : nat) (w : World) : Runtime * outcome unit :=
  run_for Sample.uncloak_ip Sample.json_loads Sample.str_other
    Sample.collaborator_handler Sample.external_handler (fun _ => 5)
    fuel (Sample.handlers, w).

(** The sample bot with the restart on error turned off. *)
Definition parked_once (replies : list reply) : World :=
  {| bot := {| domain := "example.org"; channel := Sample.lobby; user := 0%nat;
               user_count := 0; restart_on_error := false;
               server := Some "B/socket.io/"; socket := VNone |};
     objs := Sample.users; log := []; trace := []; inbox := replies |}.

(** * Properties *)

(** Unfolds the monad down to functions on states. *)
Ltac monad_unfold :=
  unfold logger, sleep, external, set_server, set_socket, set_channel,
    update_obj, try_except, try_finally in *;
  unfold mbind, M_bind, mret, M_ret, raise, gets, modify, pure,
    with_bot, with_objs, self_user in *.

(** ** The user model *)

Section UserFacts.

Variable uncloak_ip : value -> value.
(** The uncloaking function yields an object for every raw ip. *)
Hypothesis uncloak_ip_not_None : forall ip, ip <> VNone -> uncloak_ip ip <> VNone.

Lemma set_ip_invariant ip u : ip_invariant uncloak_ip (User.set_ip uncloak_ip ip u).
Proof.
  unfold ip_invariant, User.ip; simpl.
  destruct ip;
    try (split; [split; intros H; [apply uncloak_ip_not_None in H; [tauto | discriminate]
                                  | discriminate]
                | reflexivity]).
  split; [tauto | congruence].
Qed.

Lemma set_meta_invariant meta u : ip_invariant uncloak_ip (User.set_meta uncloak_ip meta u).
Proof.
  unfold User.set_meta.
  match goal with
  | |- ip_invariant _ (User.set_aliases ?a (User.set_ip _ ?i ?v)) =>
      pose proof (set_ip_invariant i v) as H
  end.
  exact H.
Qed.

Lemma update_invariant name rank profile meta u :
  ip_invariant uncloak_ip u ->
  ip_invariant uncloak_ip (User.update uncloak_ip name rank profile meta u).
Proof.
  intros H. unfold User.update.
  destruct meta as [m |]; [apply set_meta_invariant |].
  destruct profile, name, rank; exact H.
Qed.

Lemma init_invariant name password rank profile meta :
  ip_invariant uncloak_ip (User.__init__ uncloak_ip name password rank profile meta).
Proof.
  unfold User.__init__. apply update_invariant.
  unfold ip_invariant, User.ip; simpl. tauto.
Qed.

(** C10: after construction and after every assignment of [ip] or [meta]
    and every call of [update] (as after an assignment of another
    attribute), [uncloaked_ip] is [None] exactly when [ip] is, and
    otherwise it is the uncloaking function applied to [ip]; the function
    is assumed to return an object, not [None], for every raw ip. *)
Theorem user_ip_invariant u :
  user_reachable uncloak_ip u -> ip_invariant uncloak_ip u.
Proof.
  induction 1 as [| | | ? ? ? IH | ? ? ? IH | ? ? ? IH |].
  - apply init_invariant.
  - apply set_ip_invariant.
  - apply set_meta_invariant.
  - exact IH.
  - exact IH.
  - exact IH.
  - now apply update_invariant.
Qed.

End UserFacts.

(** The invariant on the sample bot's user, after its ip was cleared. *)
Lemma user_ip_invariant_witness :
  ip_invariant Sample.uncloak_ip
    (User.set_ip Sample.uncloak_ip VNone (Sample.users 0)).
Proof.
  apply (user_ip_invariant Sample.uncloak_ip).
  - intros ip _. unfold Sample.uncloak_ip. discriminate.
  - apply reach_ip. unfold Sample.users. apply reach_init.
Defined.

(** ** Disconnection *)

Lemma disconnect_None w :
  socket (bot w) = VNone -> disconnect w = (w, Ret tt).
Proof.
  intros H. unfold disconnect. monad_unfold. now rewrite H.
Qed.

(** What [disconnect] does on a connected bot, by the answer of
    [socket.close()]. *)
Lemma disconnect_connected w r rest :
  socket (bot w) <> VNone -> inbox w = r :: rest ->
  disconnect w =
    ({| bot := {| domain := domain (bot w); channel := channel (bot w);
                  user := user (bot w); user_count := user_count (bot w);
                  restart_on_error := restart_on_error (bot w);
                  server := server (bot w); socket := VNone |};
        objs := fun k => if decide (k = user (bot w))
                         then User.set_rank (VInt (-1)) (objs w (user (bot w)))
                         else objs w k;
        log := match r with
               | Throws e => if is_Exception e
                             then (log w ++ [(ERROR, "socket.close(): %s: %r")])%list
                             else log w
               | Returns _ => log w
               end;
        trace := (trace w ++ [Close])%list;
        inbox := rest |},
     match r with
     | Returns _ => Ret tt
     | Throws e => Raise e
     end).
Proof.
  intros Hs Hin. unfold disconnect. monad_unfold.
  destruct (socket (bot w)) eqn:E; try congruence;
    rewrite Hin; destruct r as [v | e]; simpl; try reflexivity;
    destruct (is_Exception e); reflexivity.
Qed.

(** C7: on a connected bot whose [socket.close()] returns or raises,
    [disconnect] leaves the transport handle [None] and the rank of the
    bot's user -1; when [close] raises, the exception is raised again by
    [disconnect], after an error record when it is an [Exception]. *)
Theorem disconnect_always_cleans_up w r rest :
  socket (bot w) <> VNone -> inbox w = r :: rest ->
  let w' := fst (disconnect w) in
  socket (bot w') = VNone /\
  User.rank (self_user w') = VInt (-1) /\
  trace w' = (trace w ++ [Close])%list /\
  match r with
  | Returns _ => snd (disconnect w) = Ret tt /\ log w' = log w
  | Throws e =>
      snd (disconnect w) = Raise e /\
      log w' = if is_Exception e
               then (log w ++ [(ERROR, "socket.close(): %s: %r")])%list
               else log w
  end.
Proof.
  intros Hs Hin. rewrite (disconnect_connected w r rest Hs Hin). cbn [fst snd].
  unfold self_user. cbn [bot objs socket user log trace].
  rewrite decide_True by reflexivity.
  repeat split; destruct r; auto.
Qed.

(** On the sample bot, with a transport whose [close] fails. *)
Lemma disconnect_always_cleans_up_witness :
  let w := Sample.world [Throws (SocketIOError "closed")] in
  socket (bot (fst (disconnect w))) = VNone /\
  User.rank (self_user (fst (disconnect w))) = VInt (-1) /\
  snd (disconnect w) = Raise (SocketIOError "closed") /\
  log (fst (disconnect w)) = [(ERROR, "socket.close(): %s: %r")].
Proof.
  intros w.
  destruct (disconnect_always_cleans_up w (Throws (SocketIOError "closed")) [])
    as (H1 & H2 & _ & H3 & H4).
  - discriminate.
  - reflexivity.
  - repeat split; assumption.
Defined.

(** C8: [disconnect] on a bot without transport handle returns without
    changing anything; and when [socket.close()] returns, two calls of
    [disconnect] in sequence both return, the handle is [None] after each,
    and the second changes nothing. *)
Theorem disconnect_idempotent w :
  (socket (bot w) = VNone -> disconnect w = (w, Ret tt)) /\
  (forall v rest, inbox w = Returns v :: rest ->
     let w1 := fst (disconnect w) in
     let w2 := fst (disconnect w1) in
     snd (disconnect w) = Ret tt /\ snd (disconnect w1) = Ret tt /\
     socket (bot w1) = VNone /\ socket (bot w2) = VNone /\ w2 = w1).
Proof.
  split; [apply disconnect_None |].
  intros v rest Hin.
  assert (H1 : snd (disconnect w) = Ret tt /\ socket (bot (fst (disconnect w))) = VNone).
  { destruct (socket (bot w)) eqn:E.
    1: { rewrite disconnect_None by assumption. now split. }
    all: rewrite (disconnect_connected w (Returns v) rest) by (assumption || congruence);
      now split. }
  destruct H1 as [Ho Hs]. cbn zeta.
  rewrite (disconnect_None _ Hs). cbn [fst snd]. auto.
Qed.

(** On the sample bot, with a transport whose [close] returns. *)
Lemma disconnect_idempotent_witness :
  let w := Sample.world [Returns VNone] in
  snd (disconnect w) = Ret tt /\
  snd (disconnect (fst (disconnect w))) = Ret tt /\
  socket (bot (fst (disconnect (fst (disconnect w))))) = VNone.
Proof.
  intros w.
  destruct (disconnect_idempotent w) as [_ H].
  destruct (H VNone [] eq_refl) as (H1 & H2 & _ & H4 & _).
  repeat split; assumption.
Defined.

(** ** The handler registry *)

Lemma handlers_of_insert (r : registry) ev hs e :
  handlers_of (<[ev := hs]> r) e = if decide (ev = e) then hs else handlers_of r e.
Proof.
  unfold handlers_of. rewrite lookup_insert.
  destruct (decide (ev = e)); reflexivity.
Qed.

(** The entry that the lookup of the [defaultdict] creates binds no
    handler: every event keeps its list. *)
Lemma handlers_of_touch (r : registry) ev e :
  handlers_of (touch ev r) e = handlers_of r e.
Proof.
  unfold touch. rewrite handlers_of_insert.
  destruct (decide (ev = e)); congruence.
Qed.

Lemma on_other ev hs (r : registry) e :
  e <> ev -> handlers_of (on ev hs r) e = handlers_of r e.
Proof.
  intros Hne. unfold on. rewrite handlers_of_insert.
  destruct (decide (ev = e)); congruence.
Qed.

Lemma on_same_present ev h (r : registry) :
  h ∈ handlers_of r ev -> on ev [h] r = r.
Proof.
  intros Hin. unfold on. cbn [foldl].
  rewrite decide_True by assumption.
  apply insert_id. unfold handlers_of in *.
  destruct (r !! ev); [reflexivity | inversion Hin].
Qed.

Lemma on_same_absent ev h (r : registry) :
  h ∉ handlers_of r ev -> handlers_of (on ev [h] r) ev = (handlers_of r ev ++ [h])%list.
Proof.
  intros Hin. unfold on. cbn [foldl].
  rewrite decide_False by assumption.
  rewrite handlers_of_insert. now rewrite decide_True.
Qed.



Lemma occurrences_notin h hs : h ∉ hs -> occurrences h hs = 0%nat.
Proof.
  unfold occurrences. induction hs as [| x hs IH]; intros Hin; [reflexivity |].
  apply not_elem_of_cons in Hin as [Hne Hin].
  rewrite filter_cons_False by congruence. now apply IH.
Qed.

Lemma occurrences_NoDup h hs : NoDup hs -> h ∈ hs -> occurrences h hs = 1%nat.
Proof.
  unfold occurrences. induction 1 as [| x hs Hx Hnd IH]; intros Hin.
  - inversion Hin.
  - destruct (decide (x = h)) as [-> | Hne].
    + rewrite filter_cons_True by reflexivity. cbn [List.length].
      f_equal. now apply occurrences_notin.
    + rewrite filter_cons_False by assumption. apply IH.
      apply elem_of_cons in Hin as [-> | Hin]; [congruence | assumption].
Qed.

Lemma occurrences_app h l1 l2 :
  occurrences h (l1 ++ l2) = (occurrences h l1 + occurrences h l2)%nat.
Proof. unfold occurrences. now rewrite filter_app, length_app. Qed.

Lemma on_step_NoDup (acc : list handler) h :
  NoDup acc -> NoDup (if decide (h ∈ acc) then acc else (acc ++ [h])%list).
Proof.
  intros Hnd. destruct (decide (h ∈ acc)) as [Hin | Hin]; [assumption |].
  apply NoDup_app. repeat split; [assumption | | apply NoDup_singleton].
  intros x Hx Hx'. apply list_elem_of_singleton in Hx'. congruence.
Qed.

Lemma list_remove_NoDup h (l l' : list handler) :
  list_remove h l = Some l' -> NoDup l -> NoDup l'.
Proof.
  revert l'. induction l as [| x l IH]; intros l' H Hnd; [discriminate |].
  cbn [list_remove] in H. apply NoDup_cons in Hnd as [Hx Hnd].
  destruct (decide (x = h)); [inversion H; subst; assumption |].
  destruct (list_remove h l) as [l0 |] eqn:Hl; [| discriminate].
  cbn in H. inversion H; subst. apply NoDup_cons. split; [| now apply IH].
  intros Hin. apply Hx. clear -Hl Hin.
  revert l0 Hl Hin. induction l as [| y l IH]; intros l0 Hl Hin; [discriminate |].
  cbn [list_remove] in Hl. destruct (decide (y = h)).
  - inversion Hl; subst. now apply elem_of_cons; right.
  - destruct (list_remove h l) as [l1 |]; [| discriminate].
    cbn in Hl. inversion Hl; subst.
    apply elem_of_cons in Hin as [-> | Hin]; apply elem_of_cons; [now left |].
    right. now apply (IH l1).
Qed.

(** No list of a registry of the bot holds a handler twice. *)
Lemma registry_built_NoDup r :
  registry_built r -> forall event, NoDup (handlers_of r event).
Proof.
  induction 1 as [| ev hs r _ IH | ev hs r _ IH | ev r _ IH]; intros event.
  - unfold handlers_of. rewrite lookup_empty. constructor.
  - unfold on. rewrite handlers_of_insert.
    destruct (decide (ev = event)); [| apply IH].
    specialize (IH ev). revert IH. generalize (handlers_of r ev).
    induction hs as [| h hs IHhs]; intros acc Hacc; [assumption |].
    cbn [foldl]. apply IHhs. now apply on_step_NoDup.
  - unfold off. rewrite handlers_of_insert.
    destruct (decide (ev = event)); [| apply IH].
    specialize (IH ev). revert IH. generalize (handlers_of r ev).
    induction hs as [| h hs IHhs]; intros acc Hacc; [assumption |].
    cbn [foldl]. apply IHhs.
    destruct (list_remove h acc) as [acc' |] eqn:Hr; [| assumption].
    eapply list_remove_NoDup; eassumption.
  - rewrite handlers_of_touch. apply IH.
Qed.

Lemma Bot_init_built domain ch u restart :
  registry_built (fst (Bot_init domain ch u restart)).
Proof.
  unfold Bot_init. cbn [fst].
  assert (H : forall evs r, registry_built r ->
                registry_built (foldl (fun r ev => on ev [Internal ev] r) r evs)).
  { induction evs as [| ev evs IH]; intros r Hr; [assumption |].
    cbn [foldl]. apply IH. now constructor. }
  apply H. constructor.
Qed.

(** ** Dispatch *)

Section DispatchFacts.

Variable uncloak_ip : value -> value.
Variable collaborator_handler : string -> value -> M World value.
Variable external_handler : nat -> string -> value -> M World value.

#[local] Abbreviation dispatch_ :=
  (dispatch uncloak_ip collaborator_handler external_handler).
#[local] Abbreviation trigger_calls_ :=
  (trigger_calls uncloak_ip collaborator_handler external_handler).

Lemma dispatch_cons h hs event data w :
  dispatch_ (h :: hs) event data w =
    let res := call uncloak_ip collaborator_handler external_handler h event data w in
    let i := {| inv_handler := h; inv_event := event; inv_data := data;
                inv_result := snd res |} in
    if stops (snd res) then
      ([i], (fst res, match snd res with
                      | Ret _ => Ret tt
                      | Raise e => Raise e
                      | Blocked => Blocked
                      end))
    else (i :: fst (dispatch_ hs event data (fst res)),
          snd (dispatch_ hs event data (fst res))).
Proof.
  cbn [dispatch].
  destruct (call _ _ _ h event data w) as [w' [stop | e |]]; cbn; try reflexivity.
  destruct (truthy stop); [reflexivity |].
  now destruct (dispatch_ hs event data w').
Qed.



(** A call whose result ends the dispatch is the last call. *)
Lemma dispatch_stops_last hs event data w pre i post :
  fst (dispatch_ hs event data w) = (pre ++ i :: post)%list ->
  stops (inv_result i) = true -> post = [].
Proof.
  revert w pre. induction hs as [| h hs IH]; intros w pre.
  - cbn. intros Heq. destruct pre; discriminate.
  - rewrite dispatch_cons. cbn zeta.
    destruct (stops (snd (call _ _ _ h event data w))) eqn:Hs; cbn [fst]; intros Heq Hi.
    + destruct pre as [| x pre]; cbn in Heq.
      * now inversion Heq.
      * inversion Heq as [[Hx Hnil]]. destruct pre; discriminate.
    + destruct pre as [| x pre]; cbn in Heq.
      * inversion Heq as [[Hx Hrest]]. subst i. cbn in Hi. congruence.
      * inversion Heq as [[Hx Hrest]]. eapply IH; eassumption.
Qed.


(** The dispatch returns unless its last call raises or stays suspended. *)
Lemma dispatch_outcome hs event data w :
  snd (snd (dispatch_ hs event data w)) =
    match last (fst (dispatch_ hs event data w)) with
    | Some i => match inv_result i with
                | Ret _ => Ret tt
                | Raise e => Raise e
                | Blocked => Blocked
                end
    | None => Ret tt
    end.
Proof.
  revert w. induction hs as [| h hs IH]; intros w.
  - reflexivity.
  - rewrite dispatch_cons. cbn zeta.
    destruct (stops (snd (call _ _ _ h event data w))) eqn:Hs; cbn [fst snd]; [reflexivity |].
    rewrite IH. rewrite last_cons.
    destruct (last _); [reflexivity |].
    cbn. destruct (snd (call _ _ _ h event data w)); cbn in Hs; congruence.
Qed.

Lemma trigger_calls_eq event data r w :
  trigger_calls_ event data (r, w) =
    (fst (dispatch_ (handlers_of r event) event data w),
     ((touch event r, fst (snd (dispatch_ (handlers_of r event) event data w))),
      snd (snd (dispatch_ (handlers_of r event) event data w)))).
Proof.
  unfold trigger_calls.
  now destruct (dispatch_ _ event data w) as [calls [w' o]].
Qed.


End DispatchFacts.

(** ** Registration *)

Section RegistrationFacts.

Variable uncloak_ip : value -> value.
Variable collaborator_handler : string -> value -> M World value.
Variable external_handler : nat -> string -> value -> M World value.

#[local] Abbreviation dispatch_ :=
  (dispatch uncloak_ip collaborator_handler external_handler).
#[local] Abbreviation trigger_calls_ :=
  (trigger_calls uncloak_ip collaborator_handler external_handler).




End RegistrationFacts.



(** ** The handlers of the bot *)

Section HandlerFacts.

Variable uncloak_ip : value -> value.
Variable collaborator_handler : string -> value -> M World value.
Variable external_handler : nat -> string -> value -> M World value.

#[local] Abbreviation trigger_calls_ :=
  (trigger_calls uncloak_ip collaborator_handler external_handler).

Lemma Bot_init_noflood domain ch u restart :
  handlers_of (fst (Bot_init domain ch u restart)) "noflood" = [Internal "noflood"].
Proof. vm_compute. reflexivity. Qed.

(** C6 (the code at the claim's input): whatever the payload, a
    [trigger] of [noflood] on a bot as constructed calls the bot's own
    handler, and the handler raises [AttributeError], for [self.loger];
    nothing is logged and the state of the bot stays as it was. *)
Theorem noflood_handler_raises data domain ch u restart w :
  let r := fst (Bot_init domain ch u restart) in
  let res := trigger_calls_ "noflood" data (r, w) in
  inv_handler <$> fst res = [Internal "noflood"] /\
  snd (snd res) = Raise (AttributeError "Bot" "loger") /\
  snd (fst (snd res)) = w.
Proof.
  cbn zeta. rewrite trigger_calls_eq. rewrite Bot_init_noflood.
  rewrite dispatch_cons. cbn. auto.
Qed.



End HandlerFacts.



(** ** Chat *)

Section ChatFacts.

Variable check_permission : Channel.t -> string -> User.t -> outcome unit.

(** C5 (amended): when the chat permission is granted and the bot's user
    is muted or shadow-muted, [chat_message] without a recipient raises
    [ChannelPermissionError] and leaves the state as it was: no call to
    the transport is issued and no reply is consumed. *)
Theorem chat_message_muted msg meta w :
  check_permission (channel (bot w)) "chat" (self_user w) = Ret tt ->
  truthy (User.muted (self_user w)) || truthy (User.smuted (self_user w)) = true ->
  let res := chat_message check_permission msg VNone meta w in
  res = (w, Raise (ChannelPermissionError (VStr "muted"))) /\
  trace (fst res) = trace w /\ inbox (fst res) = inbox w.
Proof.
  intros Hperm Hmuted. cbn zeta.
  assert (H : chat_message check_permission msg VNone meta w
              = (w, Raise (ChannelPermissionError (VStr "muted")))).
  { unfold chat_message, mbind, M_bind, gets, pure, raise. cbn [id].
    rewrite Hperm, Hmuted. reflexivity. }
  rewrite H. auto.
Qed.

End ChatFacts.

(** On the sample bot, whose user is muted. *)
Lemma chat_message_muted_witness :
  chat_message Sample.check_permission (VStr "hi") VNone VNone (Sample.world [Returns VNone])
  = (Sample.world [Returns VNone], Raise (ChannelPermissionError (VStr "muted"))).
Proof.
  apply (chat_message_muted Sample.check_permission (VStr "hi") VNone
           (Sample.world [Returns VNone])).
  - reflexivity.
  - vm_compute. reflexivity.
Defined.

(** C5, as stated, fails: with the chat permission granted and the bot's
    user muted, [chat_message] with a recipient emits a [pm] event on the
    transport and returns. *)
Lemma chat_message_muted_pm_emits :
  let w := Sample.world [Returns VNone] in
  let res := chat_message Sample.check_permission (VStr "hi") (VStr "ann") VNone w in
  Sample.check_permission (channel (bot w)) "chat" (self_user w) = Ret tt /\
  truthy (User.muted (self_user w)) = true /\
  trace (fst res) =
    [Emit "pm"
       (VDict (<["msg" := VStr "hi"]> (<["meta" := VDict ∅]> (<["to" := VStr "ann"]> ∅))))
       (VStr "noflood")] /\
  snd res = Ret tt.
Proof.
  vm_compute. repeat split; reflexivity.
Qed.

(** ** Endpoint resolution *)

Lemma next_secure_find servers :
  Forall is_server_entry servers ->
  next_secure servers = match List.find entry_secure servers with
                        | Some srv => Ret (entry_url srv)
                        | None => Raise StopIteration
                        end.
Proof.
  induction 1 as [| srv servers (d & url & sec & -> & Hurl & Hsec) _ IH].
  - reflexivity.
  - assert (Hs : entry_secure (VDict d) = truthy sec)
      by (unfold entry_secure; cbn [subscript]; now rewrite Hsec).
    assert (Hu : entry_url (VDict d) = url)
      by (unfold entry_url; cbn [subscript]; now rewrite Hurl).
    cbn [next_secure List.find subscript]. rewrite Hs, Hsec, Hurl.
    destruct (truthy sec); [now rewrite Hu | exact IH].
Qed.

Lemma next_any_head srv servers :
  is_server_entry srv -> next_any (srv :: servers) = Ret (entry_url srv).
Proof.
  intros (d & url & sec & -> & Hurl & Hsec).
  unfold next_any, entry_url. cbn [subscript]. now rewrite Hurl.
Qed.

Section ConfigFacts.

Variable json_loads : value -> outcome value.
Variable str_other : value -> string.

#[local] Abbreviation get_socket_config_ := (get_socket_config json_loads str_other).

(** [get_socket_config] on a document that parses to an object, by the
    fields of the object. *)
Lemma get_socket_config_cases w text rest (conf : dict) :
  inbox w = Returns text :: rest ->
  json_loads text = Ret (VDict conf) ->
  let res := get_socket_config_ w in
  match conf !! "error" with
  | Some err =>
      snd res = Raise (SocketConfigError [err]) /\
      server (bot (fst res)) = server (bot w)
  | None =>
      match conf !! "servers" with
      | Some (VList servers) =>
          Forall is_server_entry servers ->
          match preferred_url servers with
          | Some url =>
              snd res = Ret tt /\
              server (bot (fst res)) = Some (py_str str_other url ++ "/socket.io/")
          | None =>
              servers = [] /\
              snd res = Raise (SocketConfigError
                                 [VStr "no servers in socket config"; VDict conf])
          end
      | Some _ => True
      | None =>
          snd res = Raise (SocketConfigError
                             [VStr "no servers in socket config"; VDict conf])
      end
  end.
Proof.
  intros Hin Hjson. cbn zeta.
  unfold get_socket_config. monad_unfold. rewrite Hin. cbn [inbox bot].
  rewrite Hjson. cbn [contains].
  destruct (conf !! "error") as [err |] eqn:Herr.
  { rewrite bool_decide_true by eauto. cbn [subscript]. rewrite Herr.
    cbn. auto. }
  rewrite bool_decide_false by (intros [? ?]; discriminate).
  cbn [subscript key_or_stop].
  destruct (conf !! "servers") as [servers |] eqn:Hsrv; [| reflexivity].
  destruct servers as [| | | | servers | |]; try exact I.
  intros Hwf. cbn [py_iter].
  rewrite (next_secure_find servers Hwf). unfold preferred_url.
  destruct (List.find entry_secure servers) as [srv |] eqn:Hfind.
  { cbn. auto. }
  cbn [key_or_stop].
  destruct servers as [| srv servers].
  { cbn. auto. }
  rewrite (next_any_head srv servers) by now inversion Hwf.
  cbn. auto.
Qed.

(** C2: for a configuration document that parses to an object: with an
    [error] field, [get_socket_config] raises [SocketConfigError];
    without one, and with a list of server entries that each carry a
    [url] and a [secure] key, it resolves to the url of the first entry
    flagged secure, else to the url of the first entry, and keeps the
    socket.io address at that url as the bot's server; with an empty
    list, or without the [servers] key, it raises [SocketConfigError]. *)
Theorem get_socket_config_prefers_secure w text rest (conf : dict) :
  inbox w = Returns text :: rest ->
  json_loads text = Ret (VDict conf) ->
  let res := get_socket_config_ w in
  let no_servers :=
    Raise (SocketConfigError [VStr "no servers in socket config"; VDict conf]) in
  (forall err, conf !! "error" = Some err ->
     snd res = Raise (SocketConfigError [err]) /\
     server (bot (fst res)) = server (bot w)) /\
  (conf !! "error" = None ->
     (conf !! "servers" = None -> snd res = no_servers) /\
     (conf !! "servers" = Some (VList []) -> snd res = no_servers) /\
     (forall servers,
        conf !! "servers" = Some (VList servers) ->
        Forall is_server_entry servers ->
        (forall srv, List.find entry_secure servers = Some srv ->
           snd res = Ret tt /\
           server (bot (fst res)) =
             Some (py_str str_other (entry_url srv) ++ "/socket.io/")) /\
        (forall srv others,
           List.find entry_secure servers = None -> servers = srv :: others ->
           snd res = Ret tt /\
           server (bot (fst res)) =
             Some (py_str str_other (entry_url srv) ++ "/socket.io/")))).
Proof.
  intros Hin Hjson. cbn zeta.
  pose proof (get_socket_config_cases w text rest conf Hin Hjson) as H.
  cbn zeta in H.
  split.
  { intros err Herr. now rewrite Herr in H. }
  intros Herr. rewrite Herr in H.
  split; [intros Hs; now rewrite Hs in H |].
  split.
  { intros Hs. rewrite Hs in H. specialize (H (List.Forall_nil _)).
    cbn in H. tauto. }
  intros servers Hs Hwf. rewrite Hs in H. specialize (H Hwf).
  unfold preferred_url in H.
  split.
  - intros srv Hfind. now rewrite Hfind in H.
  - intros srv others Hfind ->. now rewrite Hfind in H.
Qed.

End ConfigFacts.

(** On the sample document with a plain and a secure server. *)
Lemma get_socket_config_prefers_secure_witness :
  let res := get_socket_config Sample.json_loads Sample.str_other
               (Sample.world [Returns (VStr "secure")]) in
  snd res = Ret tt /\ server (bot (fst res)) = Some "B/socket.io/".
Proof.
  intros res.
  destruct (get_socket_config_prefers_secure Sample.json_loads Sample.str_other
              (Sample.world [Returns (VStr "secure")]) (VStr "secure") []
              Sample.conf_secure eq_refl eq_refl) as [_ H].
  destruct (H eq_refl) as (_ & _ & H3).
  destruct (H3 _ eq_refl) as [H4 _].
  - repeat constructor; eexists _, _, _; repeat split; reflexivity.
  - apply (H4 _ eq_refl).
Defined.

(** C2, as stated, fails: in a document without [error] field whose first
    server entry has no [secure] key, the first entry whose secure flag is
    true is the second one, with url B; the lookup of the missing key ends
    the search for a secure server, and [get_socket_config] resolves to
    the url of the first entry, A. *)
Lemma get_socket_config_unflagged_entry_first :
  let first : dict := <["url" := VStr "A"]> ∅ in
  let second : dict := <["url" := VStr "B"]> (<["secure" := VBool true]> ∅) in
  let servers := [VDict first; VDict second] in
  let conf : dict := <["servers" := VList servers]> ∅ in
  let res := get_socket_config (fun _ => Ret (VDict conf)) Sample.str_other
               (Sample.world [Returns (VStr "doc")]) in
  conf !! "error" = None /\
  List.find entry_secure servers = Some (VDict second) /\
  entry_url (VDict second) = VStr "B" /\
  snd res = Ret tt /\
  server (bot (fst res)) = Some "A/socket.io/".
Proof.
  vm_compute. repeat split; reflexivity.
Qed.

(** ** The guest login limit *)

Lemma accepts_digit c :
  Re.accepts (Re.Range "0" "9") c = true -> Re.between "0" "9" c = true.
Proof.
  destruct c as [[] [] [] [] [] [] [] []]; vm_compute; intros H;
    first [reflexivity | discriminate H].
Qed.

(** A greedy repetition consumes characters the atom accepts and hands the
    rest to the continuation. *)
Lemma greedy_split a k s c :
  Re.greedy a k s = Some c ->
  exists pre rest,
    s = pre ++ rest /\ all_chars (Re.accepts a) pre = true /\ k rest = Some c.
Proof.
  induction s as [| x s IH]; cbn [Re.greedy]; intros H.
  - exists "", "". auto.
  - destruct (Re.accepts a x) eqn:Hx.
    + destruct (Re.greedy a k s) as [r |] eqn:Hg.
      * destruct (IH H) as (pre & rest & -> & Hpre & Hk).
        exists (String x pre), rest. cbn [all_chars]. rewrite Hx, Hpre. auto.
      * exists "", (String x s). auto.
    + exists "", (String x s). auto.
Qed.

Lemma run_plain p st s c :
  forallb plain p = true -> Re.run p st s = Some c -> c = st.
Proof.
  revert st s. induction p as [| i p IH]; intros st s Hp H.
  - cbn in H. congruence.
  - cbn [forallb] in Hp. apply andb_prop in Hp as [Hi Hp].
    destruct i as [a | a | a | |]; try discriminate Hi; cbn [Re.run] in H.
    + destruct s as [| x s]; [discriminate |].
      destruct (Re.accepts a x); [| discriminate]. eauto.
    + apply greedy_split in H as (pre & rest & _ & _ & H). eauto.
    + destruct s as [| x s]; [discriminate |].
      destruct (Re.accepts a x); [| discriminate].
      apply greedy_split in H as (pre & rest & _ & _ & H). eauto.
Qed.

Lemma run_lits l p st s c :
  Re.run (Re.lits l ++ p) st s = Some c -> exists s', Re.run p st s' = Some c.
Proof.
  revert s. induction l as [| x l IH]; intros s H.
  - eauto.
  - cbn in H. destruct s as [| y s]; [discriminate |].
    destruct (Ascii.eqb (Re.lower x) (Re.lower y)); [| discriminate]. eauto.
Qed.

Lemma length_append (p r : string) :
  String.length (p ++ r) = (String.length p + String.length r)%nat.
Proof. induction p as [| x p IH]; simpl; [reflexivity | now f_equal]. Qed.

Lemma substring_prefix (p r : string) :
  substring 0 (String.length p) (p ++ r) = p.
Proof.
  induction p as [| x p IH]; simpl.
  - now destruct r.
  - now f_equal.
Qed.

(** When the pattern matches, group 1 is a non-empty string of decimal
    digits. *)
Lemma guest_login_limit_group err c :
  Re.re_match GUEST_LOGIN_LIMIT err = Some c ->
  exists d ds,
    Re.group1 c = Some (String d ds) /\
    all_chars (Re.between "0" "9") (String d ds) = true.
Proof.
  unfold Re.re_match, GUEST_LOGIN_LIMIT. intros H.
  apply run_lits in H as [s1 H]. cbn [app Re.run] in H.
  apply greedy_split in H as (_ & s2 & _ & _ & H).
  destruct s2 as [| sp s3]; [discriminate |].
  destruct (Re.accepts (Re.Lit " ") sp); [| discriminate].
  destruct s3 as [| d s4]; [discriminate |].
  destruct (Re.accepts (Re.Range "0" "9") d) eqn:Hd; [| discriminate].
  apply greedy_split in H as (ds & s5 & -> & Hds & H).
  apply run_plain in H; [| reflexivity]. subst c.
  exists d, ds. cbn [Re.close_group Re.open_group Re.group1 Re.start1].
  split.
  - f_equal.
    replace (String.length (String d (ds ++ s5)) - String.length s5)%nat
      with (String.length (String d ds)).
    + apply (substring_prefix (String d ds) s5).
    + cbn [String.length]. rewrite length_append. lia.
  - cbn [all_chars]. rewrite (accepts_digit d Hd). cbn [andb].
    clear -Hds. induction ds as [| x ds IH]; [reflexivity |].
    cbn [all_chars] in *. apply andb_prop in Hds as [Hx Hds].
    now rewrite (accepts_digit x Hx), IH.
Qed.

Lemma int_acc_digits s :
  all_chars (Re.between "0" "9") s = true ->
  forall acc, 0 <= acc -> exists n, int_acc s acc = Some n /\ 0 <= n.
Proof.
  induction s as [| x s IH]; intros Hs acc Hacc.
  - exists acc. auto.
  - cbn [all_chars] in Hs. apply andb_prop in Hs as [Hx Hs].
    cbn [int_acc]. unfold digit_val. rewrite Hx.
    apply IH; [assumption |].
    unfold Re.between in Hx. apply andb_prop in Hx as [Hlo _].
    apply N.leb_le in Hlo. change (Re.code "0") with 48%N in Hlo. lia.
Qed.

(** [int] never fails on group 1: the [except ValueError] clause of
    [login] is not reached. *)
Lemma guest_login_limit_int err c :
  Re.re_match GUEST_LOGIN_LIMIT err = Some c ->
  exists g n, Re.group1 c = Some g /\ py_int g = Ret n /\ 0 <= n.
Proof.
  intros H. apply guest_login_limit_group in H as (d & ds & Hg & Hd).
  destruct (int_acc_digits _ Hd 0 ltac:(lia)) as (n & Hn & Hpos).
  exists (String d ds), n. unfold py_int. now rewrite Hn.
Qed.

(** ** Login *)

Lemma emit_connected event data response w v rest :
  socket (bot w) <> VNone -> inbox w = Returns v :: rest ->
  emit event data response w =
    ({| bot := bot w; objs := objs w; log := log w;
        trace := (trace w ++ [Emit event data response])%list; inbox := rest |},
     Ret v).
Proof.
  intros Hs Hin. unfold emit. monad_unfold.
  destruct (socket (bot w)); try congruence; now rewrite Hin.
Qed.

(** A turn of the loop on a failure acknowledgement whose error matches
    the pattern: the bot sleeps and the loop goes on. *)
Lemma login_attempt_throttled w (res : dict) err rest c g n :
  socket (bot w) <> VNone ->
  inbox w = Returns (VDict res) :: rest ->
  truthy (dict_get res "success" (VBool false)) = false ->
  dict_get res "error" (VStr "<no error message>") = VStr err ->
  Re.re_match GUEST_LOGIN_LIMIT err = Some c ->
  Re.group1 c = Some g -> py_int g = Ret n ->
  login_attempt w =
    (advance [login_request w; Sleep (Z.max n 1)]
             [(ERROR, "login error: %s"); (WARNING, "sleep(%d)")] rest w,
     Ret Continue).
Proof.
  intros Hs Hin Hok Herr Hm Hg Hn.
  unfold login_attempt. unfold mbind at 1, M_bind at 1, gets at 1.
  unfold mbind at 1, M_bind at 1.
  rewrite (emit_connected _ _ _ w (VDict res) rest Hs Hin).
  monad_unfold. cbn [py_get]. rewrite Hok, Herr, Hm, Hg, Hn.
  unfold advance, login_request, self_user. cbn.
  now rewrite <- !app_assoc.
Qed.

(** A turn of the loop on a failure acknowledgement whose error does not
    match the pattern: [LoginError], and no sleep. *)
Lemma login_attempt_rejected w (res : dict) err rest :
  socket (bot w) <> VNone ->
  inbox w = Returns (VDict res) :: rest ->
  truthy (dict_get res "success" (VBool false)) = false ->
  dict_get res "error" (VStr "<no error message>") = VStr err ->
  Re.re_match GUEST_LOGIN_LIMIT err = None ->
  login_attempt w =
    (advance [login_request w] [(ERROR, "login error: %s")] rest w,
     Raise (LoginError (VStr err))).
Proof.
  intros Hs Hin Hok Herr Hm.
  unfold login_attempt. unfold mbind at 1, M_bind at 1, gets at 1.
  unfold mbind at 1, M_bind at 1.
  rewrite (emit_connected _ _ _ w (VDict res) rest Hs Hin).
  monad_unfold. cbn [py_get]. rewrite Hok, Herr, Hm.
  reflexivity.
Qed.

(** C1: a failure acknowledgement of the [login] request whose error
    string matches the guest login limit, with N the number it captures,
    makes the bot sleep max(N, 1) seconds and go on with the loop, from
    the next request; one whose error string does not match makes the
    loop raise [LoginError] with that string, after no sleep and no
    further request.  The message "guest logins are limited to 1 per 30
    seconds." matches with N = 30, and "guest logins are limited to abc
    seconds." does not match. *)
Theorem login_guest_throttle w (res : dict) err rest :
  socket (bot w) <> VNone ->
  inbox w = Returns (VDict res) :: rest ->
  truthy (dict_get res "success" (VBool false)) = false ->
  dict_get res "error" (VStr "<no error message>") = VStr err ->
  match Re.re_match GUEST_LOGIN_LIMIT err with
  | Some c =>
      exists g n,
        Re.group1 c = Some g /\ py_int g = Ret n /\
        let w1 := advance [login_request w; Sleep (Z.max n 1)]
                    [(ERROR, "login error: %s"); (WARNING, "sleep(%d)")] rest w in
        login_attempt w = (w1, Ret Continue) /\
        login_loop w = login_loop w1
  | None =>
      login_loop w =
        (advance [login_request w] [(ERROR, "login error: %s")] rest w,
         Raise (LoginError (VStr err)))
  end /\
  (Re.group1 <$> Re.re_match GUEST_LOGIN_LIMIT
                   "guest logins are limited to 1 per 30 seconds." = Some (Some "30") /\
   py_int "30" = Ret 30 /\ Z.max 30 1 = 30) /\
  Re.re_match GUEST_LOGIN_LIMIT "guest logins are limited to abc seconds." = None.
Proof.
  intros Hs Hin Hok Herr.
  split; [| split; [vm_compute; auto | vm_compute; reflexivity]].
  destruct (Re.re_match GUEST_LOGIN_LIMIT err) as [c |] eqn:Hm.
  - destruct (guest_login_limit_int err c Hm) as (g & n & Hg & Hn & _).
    exists g, n. split; [assumption | split; [assumption |]]. cbn zeta.
    pose proof (login_attempt_throttled w res err rest c g n Hs Hin Hok Herr Hm Hg Hn)
      as Hstep.
    split; [exact Hstep |].
    unfold login_loop at 1. rewrite Hin. cbn [List.length login_loop_for].
    unfold mbind, M_bind. rewrite Hstep. reflexivity.
  - unfold login_loop. rewrite Hin. cbn [List.length login_loop_for].
    unfold mbind, M_bind.
    now rewrite (login_attempt_rejected w res err rest Hs Hin Hok Herr Hm).
Qed.

Lemma emit_consumes event data response w w' v :
  emit event data response w = (w', Ret v) -> exists x, inbox w = x :: inbox w'.
Proof.
  unfold emit. monad_unfold.
  destruct (socket (bot w)); try discriminate;
    destruct (inbox w) as [| [x | e] rest]; try discriminate;
    intros H; inversion H; subst; cbn; eauto.
Qed.

Lemma keeps_ret {A} (a : A) : keeps_inbox (mret a).
Proof. now intros w. Qed.

Lemma keeps_raise {A} e : keeps_inbox (raise e : M World A).
Proof. now intros w. Qed.

Lemma keeps_pure {A} (o : outcome A) : keeps_inbox (pure o).
Proof. now intros w. Qed.

Lemma keeps_logger lvl fmt : keeps_inbox (logger lvl fmt).
Proof. now intros w. Qed.

Lemma keeps_sleep delay : keeps_inbox (sleep delay).
Proof. now intros w. Qed.

Lemma keeps_bind {A B} (m : M World A) (k : A -> M World B) :
  keeps_inbox m -> (forall a, keeps_inbox (k a)) -> keeps_inbox (m ≫= k).
Proof.
  intros Hm Hk w. unfold mbind, M_bind.
  specialize (Hm w). destruct (m w) as [w1 [a | e |]]; cbn [fst] in *;
    [| assumption | assumption].
  now rewrite Hk.
Qed.

Lemma keeps_try_except {A} (m : M World A) catch :
  keeps_inbox m -> (forall e h, catch e = Some h -> keeps_inbox h) ->
  keeps_inbox (try_except m catch).
Proof.
  intros Hm Hc w. unfold try_except.
  specialize (Hm w). destruct (m w) as [w1 [a | e |]]; cbn [fst] in *;
    try assumption.
  destruct (catch e) as [h |] eqn:He; [| assumption].
  now rewrite (Hc e h He).
Qed.

Ltac keeps_inbox_tac :=
  repeat first
    [ apply keeps_ret | apply keeps_raise | apply keeps_pure | apply keeps_logger
    | apply keeps_sleep
    | apply keeps_bind; [| intros ?]
    | apply keeps_try_except; [| intros ? ? ?]
    | match goal with
      | |- keeps_inbox (match ?x with _ => _ end) => destruct x
      | H : match ?x with _ => _ end = Some _ |- _ => destruct x; inversion H; subst; clear H
      end ].

(** A turn of the loop that returns has taken a reply from the script. *)
Lemma login_attempt_consumes w w' s :
  login_attempt w = (w', Ret s) -> exists x, inbox w = x :: inbox w'.
Proof.
  unfold login_attempt. unfold mbind at 1, M_bind at 1, gets at 1.
  unfold mbind at 1, M_bind at 1.
  destruct (emit _ _ _ w) as [w1 [res | e |]] eqn:He; try discriminate.
  apply emit_consumes in He as [x ->].
  intros H. exists x. f_equal.
  match type of H with
  | ?k w1 = _ => assert (Hk : keeps_inbox k) by keeps_inbox_tac;
                 specialize (Hk w1); rewrite H in Hk
  end.
  now symmetry.
Qed.

(** The turns the loop is given do not matter, once there are more of
    them than replies in the script: the loop of [login] ends by itself
    or stays suspended on the transport. *)
Lemma login_loop_enough_fuel n w :
  (List.length (inbox w) < n)%nat -> login_loop_for n w = login_loop w.
Proof.
  unfold login_loop. revert w.
  induction n as [| n IH]; intros w Hn; [lia |].
  cbn [login_loop_for]. unfold mbind, M_bind.
  destruct (login_attempt w) as [w' [[] | e |]] eqn:Hstep; try reflexivity.
  apply login_attempt_consumes in Hstep as [x Hx].
  rewrite Hx in *. cbn [List.length] in *.
  rewrite IH by lia. reflexivity.
Qed.

(** On the sample bot, throttled for 30 seconds. *)
Lemma login_guest_throttle_witness :
  let ack : dict :=
    <["success" := VBool false]>
      (<["error" := VStr "guest logins are limited to 1 per 30 seconds."]> ∅) in
  let rest := [Returns (VDict (<["success" := VBool true]> ∅))] in
  let w := Sample.world (Returns (VDict ack) :: rest) in
  login_attempt w =
    (advance [login_request w; Sleep 30]
             [(ERROR, "login error: %s"); (WARNING, "sleep(%d)")] rest w,
     Ret Continue).
Proof.
  intros ack rest w.
  destruct (login_guest_throttle w ack
              "guest logins are limited to 1 per 30 seconds." rest) as [H _].
  - discriminate.
  - reflexivity.
  - vm_compute. reflexivity.
  - vm_compute. reflexivity.
  - assert (Hm : Re.re_match GUEST_LOGIN_LIMIT
                   "guest logins are limited to 1 per 30 seconds."
                 = Some {| Re.start1 := Some "30 seconds."; Re.group1 := Some "30" |})
      by (vm_compute; reflexivity).
    rewrite Hm in H. destruct H as (g & n & Hg & Hn & Hstep & _).
    cbn [Re.group1] in Hg. inversion Hg; subst g.
    vm_compute in Hn. inversion Hn; subst n.
    exact Hstep.
Defined.

Section WholeLogin.

Variable uncloak_ip : value -> value.
Variable json_loads : value -> outcome value.
Variable str_other : value -> string.
Variable collaborator_handler : string -> value -> M World value.
Variable external_handler : nat -> string -> value -> M World value.

#[local] Abbreviation login_ :=
  (login uncloak_ip json_loads str_other collaborator_handler external_handler).
#[local] Abbreviation trigger_ :=
  (trigger uncloak_ip collaborator_handler external_handler).

(** X9: [login] of a disconnected bot that knows its server, has a user name,
    gets a session and no password challenge: it runs the loop, and what
    the loop raises, [login] raises. *)
Lemma login_runs_loop r w srv sock ack rest :
  socket (bot w) = VNone -> server (bot w) = Some srv ->
  inbox w = Returns sock :: Returns ack :: rest ->
  sock <> VNone -> truthy ack = false ->
  User.name (self_user w) <> "" ->
  login_ (r, w) =
    match login_loop (joined sock srv rest w) with
    | (w', Ret _) => trigger_ "login" (VObj "bot") (r, w')
    | (w', Raise e) => ((r, w'), Raise e)
    | (w', Blocked) => ((r, w'), Blocked)
    end.
Proof.
  intros Hsock Hsrv Hin Hs Hack Hname.
  unfold login, on_world, connect.
  unfold mbind at 1, M_bind at 1. cbn [fst snd].
  unfold mbind at 1, M_bind at 1. rewrite (disconnect_None w Hsock).
  unfold mbind at 1, M_bind at 1, gets at 1. rewrite Hsrv.
  unfold mbind at 1, M_bind at 1, mret at 1, M_ret at 1.
  unfold mbind at 1, M_bind at 1, gets at 1. rewrite Hsrv.
  unfold mbind at 1, M_bind at 1, external at 1. rewrite Hin.
  unfold set_socket, modify, with_bot. cbn [bot objs log trace inbox].
  unfold mbind at 1, M_bind at 1, gets at 1. cbn [snd bot channel].
  unfold mbind at 1, M_bind at 1.
  match goal with
  | |- context [emit ?e ?d ?r ?w0] =>
      rewrite (emit_connected e d r w0 ack rest) by (cbn; auto)
  end.
  cbn [fst snd]. rewrite Hack.
  unfold mbind at 1, M_bind at 1, mret at 1, M_ret at 1.
  unfold mbind at 1, M_bind at 1, gets at 1. cbn [snd].
  unfold self_user in *. cbn [bot objs user].
  destruct (String.eqb_spec (User.name (objs w (user (bot w)))) "") as [E | _];
    [congruence |].
  unfold mbind at 1, M_bind at 1. cbn [fst snd].
  unfold joined. cbn [bot objs log trace inbox]. rewrite <- app_assoc. cbn [app].
  destruct (login_loop _) as [w' [[] | e |]]; reflexivity.
Qed.

End WholeLogin.

(** ** The properties on the samples of the specification *)

Section Examples.

#[local] Abbreviation resolve text :=
  (let res := get_socket_config Sample.json_loads Sample.str_other
                (Sample.fresh [Returns (VStr text)]) in
   (snd res, server (bot (fst res)))).

Example resolve_secure : resolve "secure" = (Ret tt, Some "B/socket.io/").
Proof. vm_compute. reflexivity. Qed.

Example resolve_plain : resolve "plain" = (Ret tt, Some "A/socket.io/").
Proof. vm_compute. reflexivity. Qed.

Example resolve_empty :
  resolve "empty" =
    (Raise (SocketConfigError [VStr "no servers in socket config";
                               VDict Sample.conf_empty]), None).
Proof. vm_compute. reflexivity. Qed.

Example resolve_missing :
  resolve "none" =
    (Raise (SocketConfigError [VStr "no servers in socket config"; VDict ∅]), None).
Proof. vm_compute. reflexivity. Qed.

Example resolve_error :
  resolve "error" = (Raise (SocketConfigError [VStr "no such channel"]), None).
Proof. vm_compute. reflexivity. Qed.

#[local] Abbreviation run_login replies :=
  (let res := login Sample.uncloak_ip Sample.json_loads Sample.str_other
                Sample.collaborator_handler Sample.external_handler
                (Sample.handlers, Sample.fresh replies) in
   (snd res,
    omap (fun c => match c with
                   | Emit ev _ _ => Some (VStr ev)
                   | Sleep n => Some (VInt n)
                   | _ => None
                   end) (trace (snd (fst res))))).

(** The whole of [login] on a throttled guest: one sleep of 30 seconds
    between two [login] requests. *)
Example login_throttled :
  run_login
    [Returns (VStr "secure"); Returns (VObj "session"); Returns VNone;
     Returns (VDict (<["error" :=
                         VStr "guest logins are limited to 1 per 30 seconds."]> ∅));
     Returns (VDict (<["success" := VBool true]> ∅))]
  = (Ret tt, [VStr "joinChannel"; VStr "login"; VInt 30; VStr "login"]).
Proof. vm_compute. reflexivity. Qed.

(** The whole of [login] on a message without a number: [LoginError]
    after the first [login] request, without a sleep. *)
Example login_unparseable :
  run_login
    [Returns (VStr "secure"); Returns (VObj "session"); Returns VNone;
     Returns (VDict (<["error" :=
                         VStr "guest logins are limited to abc seconds."]> ∅));
     Returns (VDict (<["success" := VBool true]> ∅))]
  = (Raise (LoginError (VStr "guest logins are limited to abc seconds.")),
     [VStr "joinChannel"; VStr "login"]).
Proof. vm_compute. reflexivity. Qed.

End Examples.

(** * Further properties of the user model *)

Section UserRoundTrips.

Variable uncloak_ip : value -> value.

Lemma meta_lookups (u : User.t) :
  dict_get (User.meta u) "afk" (VBool false) = User.afk u /\
  dict_get (User.meta u) "muted" (VBool false) = User.muted u /\
  dict_get (User.meta u) "smuted" (VBool false) = User.smuted u /\
  dict_get (User.meta u) "ip" VNone = User.ip u /\
  dict_get (User.meta u) "aliases" (VList []) = User.aliases u.
Proof.
  unfold dict_get, User.meta. repeat split; now simplify_map_eq.
Qed.

(** X29: Assigning to a user the meta it reports changes nothing, when its
    [uncloaked_ip] is the one its [ip] gives. *)
Theorem meta_round_trip (u : User.t) :
  ip_invariant uncloak_ip u ->
  User.set_meta uncloak_ip (Some (User.meta u)) u = u.
Proof.
  intros [Hnone Hsome].
  destruct (meta_lookups u) as (H1 & H2 & H3 & H4 & H5).
  unfold User.set_meta. rewrite H1, H2, H3, H4, H5.
  unfold User.set_aliases, User.set_ip, User.set_flags. cbn.
  assert (Hu : match User.ip u with
               | VNone => VNone
               | _ => uncloak_ip (User.ip u)
               end = User.uncloaked_ip u).
  { destruct (User.ip u) eqn:E;
      try (symmetry; apply Hsome; discriminate).
    symmetry. now apply Hnone. }
  rewrite Hu. unfold User.ip. now destruct u.
Qed.

(** X30: The profile a user reports after an assignment holds the image and
    the text of the assigned mapping, or the empty string for a key the
    mapping lacks, and nothing else; assigning to a user the profile it
    reports changes nothing. *)
Theorem profile_round_trip (u : User.t) (p : dict) :
  User.profile (User.set_profile (Some p) u) =
    <["image" := dict_get p "image" (VStr "")]>
      (<["text" := dict_get p "text" (VStr "")]> ∅) /\
  User.set_profile (Some (User.profile u)) u = u /\
  User.set_profile None u = User.set_profile (Some ∅) u.
Proof.
  split; [reflexivity |]. split; [| reflexivity].
  unfold User.set_profile.
  assert (Hi : dict_get (User.profile u) "image" (VStr "") = User.image u)
    by (unfold dict_get, User.profile; now simplify_map_eq).
  assert (Ht : dict_get (User.profile u) "text" (VStr "") = User.text u)
    by (unfold dict_get, User.profile; now simplify_map_eq).
  rewrite Hi, Ht. now destruct u.
Qed.

(** Users are compared by name alone: the comparison is an equivalence,
    it agrees with the comparison with the name as a string, and an
    [update] that gives no name leaves a user equal to what it was,
    whatever rank, profile and meta it assigns. *)
Theorem user_equality_by_name (u v t : User.t) rank profile meta :
  User.eq_user u u = true /\
  User.eq_user u v = User.eq_user v u /\
  (User.eq_user u v = true -> User.eq_user v t = true -> User.eq_user u t = true) /\
  User.eq_user u v = User.eq_value u (VStr (User.name v)) /\
  User.eq_user (User.update uncloak_ip None rank profile meta u) u = true.
Proof.
  unfold User.eq_user, User.eq_value.
  split; [apply String.eqb_refl |].
  split; [apply String.eqb_sym |].
  split.
  { intros H1 H2. apply String.eqb_eq in H1, H2. apply String.eqb_eq. congruence. }
  split; [reflexivity |].
  assert (Hn : User.name (User.update uncloak_ip None rank profile meta u) = User.name u)
    by (unfold User.update; destruct rank, profile, meta; reflexivity).
  rewrite Hn. apply String.eqb_refl.
Qed.

End UserRoundTrips.

(** The round trip on the sample bot's user. *)
Lemma meta_round_trip_witness :
  User.set_meta Sample.uncloak_ip (Some (User.meta (Sample.users 0))) (Sample.users 0)
  = Sample.users 0.
Proof.
  apply (meta_round_trip Sample.uncloak_ip).
  apply init_invariant. intros ip _. discriminate.
Defined.

(** * Further properties of the registry *)

Lemma on_fold_spec hs (acc : list handler) :
  let res := foldl (fun acc h => if decide (h ∈ acc) then acc else (acc ++ [h])%list)
                   acc hs in
  acc `prefix_of` res /\ (forall h, h ∈ res <-> h ∈ acc \/ h ∈ hs).
Proof.
  revert acc. induction hs as [| x hs IH]; intros acc; cbn [foldl].
  - split; [reflexivity |]. intros h. split; [auto |].
    intros [H | H]; [assumption | inversion H].
  - destruct (IH (if decide (x ∈ acc) then acc else (acc ++ [x])%list)) as [Hp Hm].
    cbn zeta in *. split.
    + etransitivity; [| exact Hp].
      destruct (decide (x ∈ acc)); [reflexivity | now apply prefix_app_r].
    + intros h. rewrite Hm. rewrite elem_of_cons.
      destruct (decide (x ∈ acc)) as [Hx | Hx].
      * split; [tauto |]. intros [H | [-> | H]]; auto.
      * rewrite elem_of_app, list_elem_of_singleton. tauto.
Qed.

(** X24: [on] keeps the handlers of the event where they are and puts the new
    ones behind them: the list it leaves starts with the list it found and
    holds the handlers of both and no other; the lists of the other
    events are unchanged. *)
Theorem on_appends (event : string) (hs : list handler) (r : registry) :
  handlers_of r event `prefix_of` handlers_of (on event hs r) event /\
  (forall h, h ∈ handlers_of (on event hs r) event <->
             h ∈ handlers_of r event \/ h ∈ hs) /\
  (forall e, e <> event -> handlers_of (on event hs r) e = handlers_of r e).
Proof.
  split; [| split].
  - unfold on. rewrite handlers_of_insert, decide_True by reflexivity.
    apply on_fold_spec.
  - unfold on. rewrite handlers_of_insert, decide_True by reflexivity.
    apply on_fold_spec.
  - intros e He. now apply on_other.
Qed.

Lemma filter_other_notin h (l : list handler) :
  h ∉ l -> filter (fun x => x <> h) l = l.
Proof.
  induction l as [| x l IH]; intros Hin; [reflexivity |].
  apply not_elem_of_cons in Hin as [Hne Hin].
  rewrite filter_cons_True by congruence. f_equal. now apply IH.
Qed.

Lemma list_remove_filter h (l : list handler) :
  NoDup l ->
  match list_remove h l with
  | Some l' => l'
  | None => l
  end = filter (fun x => x <> h) l.
Proof.
  induction 1 as [| x l Hx Hnd IH]; [reflexivity |].
  cbn [list_remove]. destruct (decide (x = h)) as [-> | Hne].
  - rewrite filter_cons_False by tauto.
    symmetry. now apply filter_other_notin.
  - rewrite filter_cons_True by assumption.
    destruct (list_remove h l) as [l' |]; cbn; now rewrite <- IH.
Qed.

(** X25: On a registry of the bot, [off] takes the handler out of the list of
    the event and leaves the other handlers in their order; a handler that
    is not registered is not an error and changes no list; the lists of
    the other events are unchanged. *)
Theorem off_removes (event : string) (h : handler) (r : registry) :
  registry_built r ->
  (handlers_of (off event [h] r) event =
     filter (fun x => x <> h) (handlers_of r event)) /\
  (h ∉ handlers_of (off event [h] r) event) /\
  (h ∉ handlers_of r event ->
   handlers_of (off event [h] r) event = handlers_of r event) /\
  (forall e, e <> event -> handlers_of (off event [h] r) e = handlers_of r e).
Proof.
  intros Hb. pose proof (registry_built_NoDup r Hb event) as Hnd.
  assert (Heq : handlers_of (off event [h] r) event =
                filter (fun x => x <> h) (handlers_of r event)).
  { unfold off. rewrite handlers_of_insert, decide_True by reflexivity.
    cbn [foldl]. now apply list_remove_filter. }
  split; [exact Heq |]. split; [| split].
  - rewrite Heq. intros Hin. apply list_elem_of_filter in Hin as [Hne _]. congruence.
  - intros Hin. rewrite Heq. now apply filter_other_notin.
  - intros e He. unfold off. rewrite handlers_of_insert.
    destruct (decide (event = e)); congruence.
Qed.

(** X26: Registering a handler that the event did not have and removing it
    again leaves every event with the list it had. *)
Theorem on_then_off (event : string) (h : handler) (r : registry) :
  h ∉ handlers_of r event ->
  forall e, handlers_of (off event [h] (on event [h] r)) e = handlers_of r e.
Proof.
  intros Hin e. unfold off. rewrite handlers_of_insert.
  destruct (decide (event = e)) as [<- | Hne]; [| now apply on_other].
  rewrite on_same_absent by assumption. cbn [foldl].
  assert (H : list_remove h (handlers_of r event ++ [h]) = Some (handlers_of r event)).
  { revert Hin. generalize (handlers_of r event) as l.
    induction l as [| x l IH]; intros Hin; cbn [app list_remove].
    - now rewrite decide_True.
    - apply not_elem_of_cons in Hin as [Hne Hin].
      rewrite decide_False by congruence. now rewrite IH. }
  now rewrite H.
Qed.

(** X27: No list of a registry of the bot holds the same handler twice. *)
Theorem registry_no_repeats (r : registry) (event : string) (h : handler) :
  registry_built r -> (occurrences h (handlers_of r event) <= 1)%nat.
Proof.
  intros Hb. pose proof (registry_built_NoDup r Hb event) as Hnd.
  destruct (decide (h ∈ handlers_of r event)) as [Hin | Hin].
  - now rewrite occurrences_NoDup.
  - rewrite occurrences_notin by assumption. lia.
Qed.

Lemma bind_all_spec ev evs (r : registry) :
  handlers_of r ev = [] \/ handlers_of r ev = [Internal ev] ->
  handlers_of (foldl (fun r e => on e [Internal e] r) r evs) ev =
    if decide (ev ∈ evs) then [Internal ev] else handlers_of r ev.
Proof.
  revert r. induction evs as [| e evs IH]; intros r Hr; cbn [foldl].
  - rewrite decide_False; [reflexivity | apply not_elem_of_nil].
  - destruct (decide (e = ev)) as [-> | Hne].
    + assert (H : handlers_of (on ev [Internal ev] r) ev = [Internal ev]).
      { destruct Hr as [Hr | Hr].
        - rewrite on_same_absent by (rewrite Hr; apply not_elem_of_nil).
          now rewrite Hr.
        - rewrite on_same_present by (rewrite Hr; constructor). exact Hr. }
      rewrite IH by (right; exact H). rewrite H.
      rewrite (decide_True (P := ev ∈ ev :: evs)) by constructor.
      now destruct (decide (ev ∈ evs)).
    + rewrite IH by (rewrite on_other by congruence; exact Hr).
      rewrite on_other by congruence.
      destruct (decide (ev ∈ evs)) as [Hin | Hin].
      * rewrite decide_True; [reflexivity | now constructor].
      * rewrite decide_False; [reflexivity |].
        intros H. apply elem_of_cons in H as [-> | H]; congruence.
Qed.

(** X28: A bot as constructed binds every event that has a method
    [_on_<event>] to that method alone, and no other event to anything. *)
Theorem Bot_init_binds_events domain ch u restart (event : string) :
  handlers_of (fst (Bot_init domain ch u restart)) event =
    if decide (event ∈ internal_events) then [Internal event] else [].
Proof.
  unfold Bot_init. cbn [fst]. rewrite bind_all_spec.
  - destruct (decide (event ∈ internal_events)); [reflexivity |].
    unfold handlers_of. now rewrite lookup_empty.
  - left. unfold handlers_of. now rewrite lookup_empty.
Qed.

(** On the sample bot. *)
Lemma off_removes_witness :
  handlers_of (off "kick" [Internal "kick"] Sample.handlers) "kick" = [].
Proof.
  destruct (off_removes "kick" (Internal "kick") Sample.handlers) as [H _].
  - apply Bot_init_built.
  - rewrite H. vm_compute. reflexivity.
Defined.

Lemma on_then_off_witness :
  handlers_of (off "kick" [External 7] (on "kick" [External 7] Sample.handlers)) "kick"
  = [Internal "kick"].
Proof.
  rewrite (on_then_off "kick" (External 7) Sample.handlers).
  - vm_compute. reflexivity.
  - vm_compute. intros H. apply list_elem_of_singleton in H. discriminate.
Defined.

Lemma registry_no_repeats_witness :
  (occurrences (Internal "rank") (handlers_of Sample.handlers "rank") <= 1)%nat.
Proof.
  apply (registry_no_repeats Sample.handlers "rank" (Internal "rank")).
  apply Bot_init_built.
Defined.

(** * Further properties of the dispatch *)

Section DispatchMore.

Variable uncloak_ip : value -> value.
Variable collaborator_handler : string -> value -> M World value.
Variable external_handler : nat -> string -> value -> M World value.

#[local] Abbreviation dispatch_ :=
  (dispatch uncloak_ip collaborator_handler external_handler).
#[local] Abbreviation trigger_calls_ :=
  (trigger_calls uncloak_ip collaborator_handler external_handler).

Lemma last_snoc_inv {A} (l pre : list A) (i : A) :
  l = (pre ++ [i])%list -> last l = Some i.
Proof. intros ->. apply last_snoc. Qed.

(** X22: [trigger] does not catch what a handler raises: a call that raises is
    the last call and [trigger] raises the same exception; and [trigger]
    returns exactly when every call it made returned. *)
Theorem trigger_fail_fast event data r w :
  let res := trigger_calls uncloak_ip collaborator_handler external_handler
               event data (r, w) in
  let calls := fst res in
  let o := snd (snd res) in
  (forall pre i post e,
     calls = (pre ++ i :: post)%list -> inv_result i = Raise e ->
     post = [] /\ o = Raise e) /\
  (o = Ret tt <-> Forall (fun i => exists v, inv_result i = Ret v) calls).
Proof.
  cbn zeta. rewrite trigger_calls_eq. cbn [fst snd].
  set (hs := handlers_of r event).
  pose proof (dispatch_outcome uncloak_ip collaborator_handler external_handler
                hs event data w) as Ho.
  split.
  - intros pre i post e Hcalls Hres.
    assert (Hpost : post = []).
    { eapply dispatch_stops_last; [exact Hcalls |]. now rewrite Hres. }
    split; [assumption |]. subst post.
    rewrite Ho, (last_snoc_inv _ pre i Hcalls). now rewrite Hres.
  - split.
    + intros Hret. apply Forall_forall. intros i Hin.
      apply list_elem_of_split in Hin as (pre & post & Hcalls).
      destruct post as [| j post].
      * rewrite Ho, (last_snoc_inv _ pre i Hcalls) in Hret.
        destruct (inv_result i); [eauto | discriminate | discriminate].
      * destruct (inv_result i) as [v | e |] eqn:Hi; [eauto | |];
          (assert (Hnil : j :: post = []);
           [eapply dispatch_stops_last; [exact Hcalls | now rewrite Hi]
           | discriminate Hnil]).
    + intros HF. rewrite Ho.
      destruct (last (fst (dispatch_ hs event data w))) as [i |] eqn:Hl;
        [| reflexivity].
      apply last_Some in Hl as [pre Hl]. rewrite Hl in HF.
      apply Forall_app in HF as [_ HF]. inversion HF as [| ? ? [v Hv] _]; subst.
      now rewrite Hv.
Qed.

(** X23: While the bot's own handler is the first handler of [kick], a
    [trigger] of [kick] calls that handler alone and raises [Kicked] with
    the payload, leaving the state as it was; and registering handlers
    keeps the bot's own handler first, so that no handler registered for
    [kick] is ever called. *)
Theorem kick_ends_dispatch (r : registry) data w rest :
  handlers_of r "kick" = Internal "kick" :: rest ->
  let res := trigger_calls_ "kick" data (r, w) in
  inv_handler <$> fst res = [Internal "kick"] /\
  snd (snd res) = Raise (Kicked data) /\
  snd (fst (snd res)) = w /\
  (forall event hs, exists rest',
     handlers_of (on event hs r) "kick" = Internal "kick" :: rest').
Proof.
  intros Hr. cbn zeta. rewrite trigger_calls_eq, Hr, dispatch_cons.
  cbn. repeat split.
  intros event hs. destruct (decide (event = "kick")) as [-> | Hne].
  - destruct (on_fold_spec hs (handlers_of r "kick")) as [[k Hk] _].
    cbn zeta in Hk. unfold on. rewrite handlers_of_insert, decide_True by reflexivity.
    rewrite Hk, Hr. cbn. eauto.
  - rewrite on_other by congruence. eauto.
Qed.

End DispatchMore.

(** On the sample bot, with a handler registered for [kick]. *)
Lemma kick_ends_dispatch_witness :
  snd (snd (trigger_calls Sample.uncloak_ip Sample.collaborator_handler
              Sample.external_handler "kick" (VStr "bye")
              (on "kick" [External 0] Sample.handlers, Sample.world [])))
  = Raise (Kicked (VStr "bye")).
Proof.
  apply (kick_ends_dispatch Sample.uncloak_ip Sample.collaborator_handler
           Sample.external_handler (on "kick" [External 0] Sample.handlers)
           (VStr "bye") (Sample.world []) [External 0]).
  vm_compute. reflexivity.
Defined.

(** * Further properties of the connection *)

(** X19: What [disconnect] leaves alone: the server it resolved, and every
    attribute of the bot but the transport handle; every user object but
    the bot's own, of which only the rank can change; the records of the
    logger it found.  It calls the transport at most once, to close it. *)
Theorem disconnect_frame w :
  let w' := fst (disconnect w) in
  bot w' = with_socket (socket (bot w')) (bot w) /\
  (forall k, k <> user (bot w) -> objs w' k = objs w k) /\
  objs w' (user (bot w)) =
    User.set_rank (User.rank (objs w' (user (bot w)))) (objs w (user (bot w))) /\
  (trace w' = trace w \/ trace w' = (trace w ++ [Close])%list) /\
  log w `prefix_of` log w'.
Proof.
  cbn zeta. destruct (socket (bot w)) eqn:Hs.
  1: { rewrite (disconnect_None w Hs). cbn [fst]. unfold with_socket.
       repeat split; auto.
       - destruct w as [[] ? ? ? ?]; reflexivity.
       - now destruct (objs w (user (bot w))). }
  all: destruct (inbox w) as [| a rest] eqn:Hin;
    [ unfold disconnect; monad_unfold; rewrite Hs, Hin; cbn;
      unfold with_socket; rewrite Hs;
      repeat split; auto;
      [ destruct w as [[] ? ? ? ?]; cbn in *; now subst
      | now destruct (objs w (user (bot w))) ]
    | rewrite (disconnect_connected w a rest) by (assumption || congruence);
      cbn [fst bot objs log trace socket]; unfold with_socket; cbn [socket];
      repeat split; auto;
      [ intros k Hk; now rewrite decide_False
      | now rewrite decide_True
      | destruct a as [v | e]; [reflexivity |];
        destruct (is_Exception e); [now apply prefix_app_r | reflexivity] ] ].
Qed.

Lemma silent_ret {A} (a : A) : silent (mret a).
Proof. now intros w. Qed.

Lemma silent_raise {A} e : silent (raise e : M World A).
Proof. now intros w. Qed.

Lemma silent_pure {A} (o : outcome A) : silent (pure o).
Proof. now intros w. Qed.

Lemma silent_gets {A} (f : World -> A) : silent (gets f).
Proof. now intros w. Qed.

Lemma silent_bind {A B} (m : M World A) (k : A -> M World B) :
  silent m -> (forall a, silent (k a)) -> silent (m ≫= k).
Proof.
  intros Hm Hk w. unfold mbind, M_bind.
  specialize (Hm w). destruct (m w) as [w1 [a | e |]]; cbn [fst] in *; subst;
    [apply Hk | reflexivity | reflexivity].
Qed.

Lemma silent_try_except {A} (m : M World A) catch :
  silent m -> (forall e h, catch e = Some h -> silent h) ->
  silent (try_except m catch).
Proof.
  intros Hm Hc w. unfold try_except.
  specialize (Hm w). destruct (m w) as [w1 [a | e |]]; cbn [fst] in *; subst;
    try reflexivity.
  destruct (catch e) as [h |] eqn:He; [| reflexivity].
  apply (Hc e h He).
Qed.

Ltac silent_tac :=
  repeat first
    [ apply silent_ret | apply silent_raise | apply silent_pure | apply silent_gets
    | apply silent_bind; [| intros ?]
    | apply silent_try_except; [| intros ? ? ?]
    | match goal with
      | |- silent (match ?x with _ => _ end) => destruct x
      | |- silent (if ?x then _ else _) => destruct x
      | H : key_or_stop _ ?e = Some _ |- _ =>
          destruct e; cbn in H; inversion H; subst; clear H
      | H : match ?x with _ => _ end = Some _ |- _ =>
          destruct x; inversion H; subst; clear H
      end ].

(** A computation that leaves the state alone hands it to what follows. *)
Lemma silent_bind_eq {A B} (m : M World A) (k : A -> M World B) w :
  silent m ->
  (m ≫= k) w = match snd (m w) with
               | Ret a => k a w
               | Raise e => (w, Raise e)
               | Blocked => (w, Blocked)
               end.
Proof.
  intros Hm. unfold mbind, M_bind. specialize (Hm w).
  destruct (m w) as [w1 [a | e |]]; cbn [fst snd] in *; now subst.
Qed.

Section ConfigMore.

Variable json_loads : value -> outcome value.
Variable str_other : value -> string.

#[local] Abbreviation get_socket_config_ := (get_socket_config json_loads str_other).

Lemma get_socket_config_shape w :
  exists b' o,
    get_socket_config_ w =
      ({| bot := b'; objs := objs w; log := log w;
          trace := (trace w ++ [HttpGet (config_url (bot w))])%list;
          inbox := tail (inbox w) |}, o) /\
    match o with
    | Ret _ => exists srv, b' = with_server (Some srv) (bot w)
    | _ => b' = bot w
    end.
Proof.
  unfold get_socket_config, config_url.
  unfold mbind at 1, M_bind at 1, gets at 1.
  unfold mbind at 1, M_bind at 1, external at 1.
  destruct (inbox w) as [| [text | e] rest]; cbn [tail];
    [now exists (bot w), Blocked | | now exists (bot w), (Raise e)].
  rewrite silent_bind_eq by silent_tac. cbn [pure snd].
  destruct (json_loads text) as [conf | e |];
    [| now exists (bot w), (Raise e) | now exists (bot w), Blocked].
  rewrite silent_bind_eq by silent_tac. cbn [pure snd].
  destruct (contains conf "error") as [[] | e |];
    [| | now exists (bot w), (Raise e) | now exists (bot w), Blocked].
  - rewrite silent_bind_eq by silent_tac. cbn [pure snd].
    destruct (subscript conf "error") as [err | e |];
      [now exists (bot w), (Raise (SocketConfigError [err]))
      | now exists (bot w), (Raise e) | now exists (bot w), Blocked].
  - rewrite silent_bind_eq by silent_tac.
    match goal with
    | |- context [snd (?sel ?w1)] => destruct (snd (sel w1)) as [srv | e |]
    end;
      [| now exists (bot w), (Raise e) | now exists (bot w), Blocked].
    eexists _, (Ret tt). split; [reflexivity |]. cbn. eauto.
Qed.

(** X16: [get_socket_config] makes one HTTP request, to the address of the
    channel's configuration under the bot's domain, and no other call; it
    takes one reply; it leaves users and log alone; and it changes the
    bot only when it returns, and then only the server. *)
Theorem get_socket_config_frame w :
  let res := get_socket_config_ w in
  trace (fst res) = (trace w ++ [HttpGet (config_url (bot w))])%list /\
  inbox (fst res) = tail (inbox w) /\
  objs (fst res) = objs w /\ log (fst res) = log w /\
  match snd res with
  | Ret _ => exists srv, bot (fst res) = with_server (Some srv) (bot w)
  | _ => bot (fst res) = bot w
  end.
Proof.
  cbn zeta. destruct (get_socket_config_shape w) as (b' & o & -> & Ho).
  cbn [fst snd trace inbox objs log bot]. auto.
Qed.

Lemma next_secure_skips pre srv post :
  Forall (fun s => is_server_entry s /\ entry_secure s = false) pre ->
  next_secure (pre ++ srv :: post) = next_secure (srv :: post).
Proof.
  induction 1 as [| s pre [(d & url & sec & -> & Hurl & Hsec) Hs] _ IH];
    [reflexivity |].
  cbn [app next_secure subscript]. rewrite Hsec.
  unfold entry_secure in Hs. cbn [subscript] in Hs. rewrite Hsec in Hs.
  now rewrite Hs.
Qed.

(** X17: When an entry of the server list that comes before every entry
    flagged secure has no [secure] key, [get_socket_config] gives up the
    search for a secure server and resolves to the url of the first entry
    of the list, whatever the entries behind hold. *)
Theorem get_socket_config_missing_flag w text rest (conf d : dict)
    first others pre post url :
  inbox w = Returns text :: rest ->
  json_loads text = Ret (VDict conf) ->
  conf !! "error" = None ->
  conf !! "servers" = Some (VList (first :: others)) ->
  first :: others = (pre ++ VDict d :: post)%list ->
  Forall (fun s => is_server_entry s /\ entry_secure s = false) pre ->
  d !! "secure" = None ->
  subscript first "url" = Ret url ->
  let res := get_socket_config_ w in
  snd res = Ret tt /\
  server (bot (fst res)) = Some (py_str str_other url ++ "/socket.io/").
Proof.
  intros Hin Hjson Herr Hsrv Hsplit Hpre Hd Hurl. cbn zeta.
  unfold get_socket_config. monad_unfold. rewrite Hin. cbn [inbox bot].
  rewrite Hjson. cbn [contains].
  rewrite bool_decide_false by (rewrite Herr; intros [? ?]; discriminate).
  cbn [subscript key_or_stop]. rewrite Hsrv. cbn [py_iter].
  rewrite Hsplit, (next_secure_skips pre (VDict d) post Hpre).
  cbn [next_secure subscript]. rewrite Hd. cbn [key_or_stop].
  rewrite <- Hsplit. cbn [next_any]. rewrite Hurl. cbn. auto.
Qed.

(** X18: An entry of the server list that is not an object, met before any
    entry flagged secure, makes [get_socket_config] raise [TypeError]: the
    error is not turned into a [SocketConfigError], and no server is
    kept. *)
Theorem get_socket_config_bad_entry w text rest (conf : dict) pre bad post :
  inbox w = Returns text :: rest ->
  json_loads text = Ret (VDict conf) ->
  conf !! "error" = None ->
  conf !! "servers" = Some (VList (pre ++ bad :: post)) ->
  Forall (fun s => is_server_entry s /\ entry_secure s = false) pre ->
  (forall d : dict, bad <> VDict d) ->
  let res := get_socket_config_ w in
  snd res = Raise TypeError /\ server (bot (fst res)) = server (bot w).
Proof.
  intros Hin Hjson Herr Hsrv Hpre Hbad. cbn zeta.
  unfold get_socket_config. monad_unfold. rewrite Hin. cbn [inbox bot].
  rewrite Hjson. cbn [contains].
  rewrite bool_decide_false by (rewrite Herr; intros [? ?]; discriminate).
  cbn [subscript key_or_stop]. rewrite Hsrv. cbn [py_iter].
  rewrite (next_secure_skips pre bad post Hpre).
  assert (Hsub : subscript bad "secure" = Raise TypeError).
  { destruct bad; try reflexivity. now destruct (Hbad d). }
  cbn [next_secure]. rewrite Hsub. cbn. auto.
Qed.

End ConfigMore.

(** On a list whose first entry has no flag and whose second is secure:
    the first is taken. *)
Lemma get_socket_config_missing_flag_witness :
  let conf : dict :=
    <["servers" := VList [VDict (<["url" := VStr "A"]> ∅);
                          VDict (<["url" := VStr "B"]> (<["secure" := VBool true]> ∅))]]> ∅ in
  let res := get_socket_config (fun _ => Ret (VDict conf)) Sample.str_other
               (Sample.fresh [Returns (VStr "text")]) in
  snd res = Ret tt /\ server (bot (fst res)) = Some "A/socket.io/".
Proof.
  intros conf.
  apply (get_socket_config_missing_flag (fun _ => Ret (VDict conf)) Sample.str_other
           (Sample.fresh [Returns (VStr "text")]) (VStr "text") [] conf
           (<["url" := VStr "A"]> ∅)
           (VDict (<["url" := VStr "A"]> ∅))
           [VDict (<["url" := VStr "B"]> (<["secure" := VBool true]> ∅))]
           []
           [VDict (<["url" := VStr "B"]> (<["secure" := VBool true]> ∅))]
           (VStr "A"));
    try reflexivity.
  constructor.
Defined.

(** On a list whose first entry is a string. *)
Lemma get_socket_config_bad_entry_witness :
  let conf : dict := <["servers" := VList [VStr "A"]]> ∅ in
  snd (get_socket_config (fun _ => Ret (VDict conf)) Sample.str_other
         (Sample.fresh [Returns (VStr "text")])) = Raise TypeError.
Proof.
  intros conf.
  apply (get_socket_config_bad_entry (fun _ => Ret (VDict conf)) Sample.str_other
           (Sample.fresh [Returns (VStr "text")]) (VStr "text") [] conf
           [] (VStr "A") []);
    try reflexivity.
  - constructor.
  - discriminate.
Defined.

Section ConnectMore.

Variable json_loads : value -> outcome value.
Variable str_other : value -> string.

#[local] Abbreviation connect_ := (connect json_loads str_other).
#[local] Abbreviation get_socket_config_ := (get_socket_config json_loads str_other).

(** The state after [socket_io] answered a [connect]. *)
Lemma connect_disconnected w :
  socket (bot w) = VNone ->
  connect_ w =
    match server (bot w) with
    | Some srv => (external (Connect (Some srv)) ≫= set_socket) w
    | None =>
        match get_socket_config_ w with
        | (w1, Ret _) => (external (Connect (server (bot w1))) ≫= set_socket) w1
        | (w1, Raise e) => (w1, Raise e)
        | (w1, Blocked) => (w1, Blocked)
        end
    end.
Proof.
  intros Hs. unfold connect.
  unfold mbind at 1, M_bind at 1. rewrite (disconnect_None w Hs).
  unfold mbind at 1, M_bind at 1, gets at 1.
  destruct (server (bot w)) as [srv |] eqn:Hsrv.
  - unfold mbind at 1, M_bind at 1, mret at 1, M_ret at 1.
    unfold mbind at 1, M_bind at 1, gets at 1. now rewrite Hsrv.
  - unfold mbind at 1, M_bind at 1.
    destruct (get_socket_config_ w) as [w1 [[] | e |]]; reflexivity.
Qed.

(** X12: [connect] on a disconnected bot that knows its server makes no HTTP
    request: its one call opens a session at that server, and the session
    it is given becomes the transport handle; when the session cannot be
    opened the exception is raised and the bot stays disconnected. *)
Theorem connect_uses_cached_server w srv a rest :
  socket (bot w) = VNone -> server (bot w) = Some srv ->
  inbox w = a :: rest ->
  connect_ w =
    ({| bot := match a with
               | Returns sock => with_socket sock (bot w)
               | Throws _ => bot w
               end;
        objs := objs w; log := log w;
        trace := (trace w ++ [Connect (Some srv)])%list;
        inbox := rest |},
     match a with
     | Returns _ => Ret tt
     | Throws e => Raise e
     end).
Proof.
  intros Hs Hsrv Hin. rewrite (connect_disconnected w Hs), Hsrv.
  unfold mbind, M_bind, external, set_socket, modify, with_bot, with_socket.
  rewrite Hin. destruct a; reflexivity.
Qed.

(** X13: [connect] on a bot without server resolves the endpoint first and
    opens the session at the server it resolved; when the resolution
    fails, [connect] fails the same way and opens no session. *)
Theorem connect_resolves_first w :
  socket (bot w) = VNone -> server (bot w) = None ->
  let w1 := fst (get_socket_config_ w) in
  match snd (get_socket_config_ w) with
  | Ret _ =>
      (exists srv, server (bot w1) = Some srv) /\
      forall sock rest, inbox w1 = Returns sock :: rest ->
        connect_ w =
          ({| bot := with_socket sock (bot w1); objs := objs w; log := log w;
              trace := (trace w ++ [HttpGet (config_url (bot w));
                                    Connect (server (bot w1))])%list;
              inbox := rest |}, Ret tt)
  | Raise e =>
      connect_ w = (w1, Raise e) /\
      trace w1 = (trace w ++ [HttpGet (config_url (bot w))])%list /\
      socket (bot w1) = VNone
  | Blocked => connect_ w = (w1, Blocked)
  end.
Proof.
  intros Hs Hsrv. cbn zeta. rewrite (connect_disconnected w Hs), Hsrv.
  destruct (get_socket_config_shape json_loads str_other w) as (b' & o & -> & Ho).
  cbn [fst snd]. destruct o as [[] | e |].
  - destruct Ho as [srv ->]. split; [cbn; eauto |].
    intros sock rest Hin. cbn [inbox] in Hin.
    unfold mbind, M_bind, external, set_socket, modify, with_bot, with_socket.
    cbn [inbox bot objs log trace]. rewrite Hin. cbn.
    now rewrite <- app_assoc.
  - subst b'. cbn. auto.
  - reflexivity.
Qed.

(** X14: [connect] on a connected bot closes the session it has before it
    opens another: when [close] returns, the bot's user is back at rank
    -1 and the new session, opened at the server the bot knows, is the
    transport handle. *)
Theorem connect_replaces_session w srv v sock rest :
  socket (bot w) <> VNone -> server (bot w) = Some srv ->
  inbox w = Returns v :: Returns sock :: rest ->
  connect_ w =
    ({| bot := with_socket sock (bot w);
        objs := fun k => if decide (k = user (bot w))
                         then User.set_rank (VInt (-1)) (objs w (user (bot w)))
                         else objs w k;
        log := log w;
        trace := (trace w ++ [Close; Connect (Some srv)])%list;
        inbox := rest |},
     Ret tt).
Proof.
  intros Hs Hsrv Hin. unfold connect.
  unfold mbind at 1, M_bind at 1.
  rewrite (disconnect_connected w (Returns v) (Returns sock :: rest) Hs Hin).
  unfold mbind at 1, M_bind at 1, gets at 1. cbn [bot server]. rewrite Hsrv.
  unfold mbind, M_bind, mret, M_ret, gets, external, set_socket, modify,
    with_bot, with_socket.
  cbn. rewrite <- app_assoc, Hsrv. reflexivity.
Qed.

(** X15: When the session a connected bot has cannot be closed, [connect]
    raises what [close] raised and opens no session; the bot is left
    disconnected, its user at rank -1. *)
Theorem connect_close_failure w e rest :
  socket (bot w) <> VNone -> inbox w = Throws e :: rest ->
  let res := connect_ w in
  snd res = Raise e /\
  socket (bot (fst res)) = VNone /\
  User.rank (self_user (fst res)) = VInt (-1) /\
  trace (fst res) = (trace w ++ [Close])%list /\
  inbox (fst res) = rest.
Proof.
  intros Hs Hin. cbn zeta.
  assert (H : connect_ w = (fst (disconnect w), Raise e)).
  { unfold connect. unfold mbind at 1, M_bind at 1.
    now rewrite (disconnect_connected w (Throws e) rest Hs Hin). }
  rewrite H, (disconnect_connected w (Throws e) rest Hs Hin).
  cbn [fst snd]. unfold self_user. cbn [bot objs socket user trace inbox].
  rewrite decide_True by reflexivity. auto.
Qed.

End ConnectMore.

(** On the sample bot. *)
Lemma connect_uses_cached_server_witness :
  let res := connect Sample.json_loads Sample.str_other
               (parked [Returns (VObj "s2")]) in
  snd res = Ret tt /\ socket (bot (fst res)) = VObj "s2" /\
  trace (fst res) = [Connect (Some "B/socket.io/")].
Proof.
  intros res. subst res.
  rewrite (connect_uses_cached_server Sample.json_loads Sample.str_other
             (parked [Returns (VObj "s2")]) "B/socket.io/" (Returns (VObj "s2")) []);
    try reflexivity.
  cbn. auto.
Defined.

Lemma connect_resolves_first_witness :
  let res := connect Sample.json_loads Sample.str_other
               (Sample.fresh [Returns (VStr "error")]) in
  snd res = Raise (SocketConfigError [VStr "no such channel"]) /\
  socket (bot (fst res)) = VNone.
Proof.
  intros res. subst res.
  pose proof (connect_resolves_first Sample.json_loads Sample.str_other
                (Sample.fresh [Returns (VStr "error")]) eq_refl eq_refl) as H.
  cbn zeta in H.
  assert (Ho : snd (get_socket_config Sample.json_loads Sample.str_other
                      (Sample.fresh [Returns (VStr "error")]))
               = Raise (SocketConfigError [VStr "no such channel"]))
    by (vm_compute; reflexivity).
  rewrite Ho in H. destruct H as (H1 & _ & H3).
  rewrite H1. cbn [fst snd]. auto.
Defined.

Lemma connect_replaces_session_witness :
  let res := connect Sample.json_loads Sample.str_other
               (Sample.world [Returns VNone; Returns (VObj "s2")]) in
  snd res = Ret tt /\ socket (bot (fst res)) = VObj "s2" /\
  trace (fst res) = [Close; Connect (Some "B/socket.io/")].
Proof.
  intros res. subst res.
  rewrite (connect_replaces_session Sample.json_loads Sample.str_other
             (Sample.world [Returns VNone; Returns (VObj "s2")])
             "B/socket.io/" VNone (VObj "s2") []);
    try reflexivity; [| discriminate].
  cbn. auto.
Defined.

Lemma connect_close_failure_witness :
  let res := connect Sample.json_loads Sample.str_other
               (Sample.world [Throws (SocketIOError "gone"); Returns (VObj "s2")]) in
  snd res = Raise (SocketIOError "gone") /\ socket (bot (fst res)) = VNone /\
  inbox (fst res) = [Returns (VObj "s2")].
Proof.
  intros res. subst res.
  destruct (connect_close_failure Sample.json_loads Sample.str_other
              (Sample.world [Throws (SocketIOError "gone"); Returns (VObj "s2")])
              (SocketIOError "gone") [Returns (VObj "s2")])
    as (H1 & H2 & _ & _ & H5); [discriminate | reflexivity |].
  auto.
Defined.

(** * Further properties of the login *)

Section LoginMore.

Variable uncloak_ip : value -> value.
Variable json_loads : value -> outcome value.
Variable str_other : value -> string.
Variable collaborator_handler : string -> value -> M World value.
Variable external_handler : nat -> string -> value -> M World value.

#[local] Abbreviation login_ :=
  (login uncloak_ip json_loads str_other collaborator_handler external_handler).
#[local] Abbreviation trigger_ :=
  (trigger uncloak_ip collaborator_handler external_handler).

(** [login] up to the answer to the request to join the channel. *)
Lemma login_after_join r w srv sock ack rest :
  socket (bot w) = VNone -> server (bot w) = Some srv ->
  inbox w = Returns sock :: Returns ack :: rest ->
  sock <> VNone ->
  login_ (r, w) =
    if truthy ack
    then ((r, joined sock srv rest w),
          Raise (LoginError (VStr "invalid channel password")))
    else if String.eqb (User.name (self_user w)) ""
    then ((on_world (logger WARNING "no user");;
           trigger_ "login" (VObj "bot")) (r, joined sock srv rest w))
    else ((on_world login_loop;;
           trigger_ "login" (VObj "bot")) (r, joined sock srv rest w)).
Proof.
  intros Hsock Hsrv Hin Hs.
  unfold login, on_world, connect.
  unfold mbind at 1, M_bind at 1. cbn [fst snd].
  unfold mbind at 1, M_bind at 1. rewrite (disconnect_None w Hsock).
  unfold mbind at 1, M_bind at 1, gets at 1. rewrite Hsrv.
  unfold mbind at 1, M_bind at 1, mret at 1, M_ret at 1.
  unfold mbind at 1, M_bind at 1, gets at 1. rewrite Hsrv.
  unfold mbind at 1, M_bind at 1, external at 1. rewrite Hin.
  unfold set_socket, modify, with_bot. cbn [bot objs log trace inbox].
  unfold mbind at 1, M_bind at 1, gets at 1. cbn [snd bot channel].
  unfold mbind at 1, M_bind at 1.
  match goal with
  | |- context [emit ?e ?d ?r ?w0] =>
      rewrite (emit_connected e d r w0 ack rest) by (cbn; auto)
  end.
  cbn [fst snd bot objs log trace inbox]. rewrite <- app_assoc. cbn [app].
  fold (joined sock srv rest w).
  destruct (truthy ack); [reflexivity |].
  unfold mbind at 1, M_bind at 1, mret at 1, M_ret at 1.
  unfold mbind at 1, M_bind at 1, gets at 1. cbn [snd].
  change (self_user (joined sock srv rest w)) with (self_user w).
  destruct (String.eqb (User.name (self_user w)) ""); reflexivity.
Qed.

(** X10: When the channel answers the request to join with a password
    challenge, [login] raises [LoginError] at once: the bot has connected
    and asked to join, and sends no [login] request. *)
Theorem login_wrong_channel_password r w srv sock ack rest :
  socket (bot w) = VNone -> server (bot w) = Some srv ->
  inbox w = Returns sock :: Returns ack :: rest ->
  sock <> VNone -> truthy ack = true ->
  login_ (r, w) =
    ((r, joined sock srv rest w),
     Raise (LoginError (VStr "invalid channel password"))).
Proof.
  intros Hsock Hsrv Hin Hs Hack.
  rewrite (login_after_join r w srv sock ack rest Hsock Hsrv Hin Hs).
  now rewrite Hack.
Qed.

(** X11: A bot whose user has no name does not authenticate: once it has
    joined the channel it records a warning, sends no [login] request and
    goes on to the [login] event. *)
Theorem login_anonymous r w srv sock ack rest :
  socket (bot w) = VNone -> server (bot w) = Some srv ->
  inbox w = Returns sock :: Returns ack :: rest ->
  sock <> VNone -> truthy ack = false ->
  User.name (self_user w) = "" ->
  login_ (r, w) =
    trigger_ "login" (VObj "bot")
      (r, {| bot := with_socket sock (bot w); objs := objs w;
             log := (log w ++ [(WARNING, "no user")])%list;
             trace := trace (joined sock srv rest w); inbox := rest |}).
Proof.
  intros Hsock Hsrv Hin Hs Hack Hname.
  rewrite (login_after_join r w srv sock ack rest Hsock Hsrv Hin Hs).
  rewrite Hack, Hname. reflexivity.
Qed.

End LoginMore.

(** On the sample bot, disconnected and with its server known. *)
Lemma login_runs_loop_witness :
  snd (login Sample.uncloak_ip Sample.json_loads Sample.str_other
         Sample.collaborator_handler Sample.external_handler
         (Sample.handlers,
          parked [Returns (VObj "s2"); Returns VNone;
                  Returns (VDict (<["error" := VStr "banned"]> ∅))]))
  = Raise (LoginError (VStr "banned")).
Proof.
  rewrite (login_runs_loop Sample.uncloak_ip Sample.json_loads Sample.str_other
             Sample.collaborator_handler Sample.external_handler Sample.handlers
             (parked [Returns (VObj "s2"); Returns VNone;
                      Returns (VDict (<["error" := VStr "banned"]> ∅))])
             "B/socket.io/" (VObj "s2") VNone
             [Returns (VDict (<["error" := VStr "banned"]> ∅))]);
    try reflexivity; try discriminate.
Defined.

Lemma login_wrong_channel_password_witness :
  snd (login Sample.uncloak_ip Sample.json_loads Sample.str_other
         Sample.collaborator_handler Sample.external_handler
         (Sample.handlers, parked [Returns (VObj "s2"); Returns (VBool true)]))
  = Raise (LoginError (VStr "invalid channel password")).
Proof.
  rewrite (login_wrong_channel_password Sample.uncloak_ip Sample.json_loads
             Sample.str_other Sample.collaborator_handler Sample.external_handler
             Sample.handlers (parked [Returns (VObj "s2"); Returns (VBool true)])
             "B/socket.io/" (VObj "s2") (VBool true) []);
    try reflexivity.
  discriminate.
Defined.

Lemma login_anonymous_witness :
  let res := login Sample.uncloak_ip Sample.json_loads Sample.str_other
               Sample.collaborator_handler Sample.external_handler
               (Sample.handlers, anonymous [Returns (VObj "s2"); Returns VNone]) in
  snd res = Ret tt /\ log (snd (fst res)) = [(WARNING, "no user")] /\
  List.length (trace (snd (fst res))) = 2%nat.
Proof.
  intros res. subst res.
  rewrite (login_anonymous Sample.uncloak_ip Sample.json_loads
             Sample.str_other Sample.collaborator_handler Sample.external_handler
             Sample.handlers (anonymous [Returns (VObj "s2"); Returns VNone])
             "B/socket.io/" (VObj "s2") VNone []);
    try reflexivity; [| discriminate].
  vm_compute. auto.
Defined.

(** ** The loop of the login *)

Lemma advance_advance c1 l1 r1 c2 l2 r2 w :
  advance c2 l2 r2 (advance c1 l1 r1 w) = advance (c1 ++ c2) (l1 ++ l2) r2 w.
Proof. unfold advance. cbn. now rewrite !app_assoc. Qed.

(** A turn of the loop on a success acknowledgement. *)
Lemma login_attempt_accepted w (res : dict) rest :
  socket (bot w) <> VNone ->
  inbox w = Returns (VDict res) :: rest ->
  truthy (dict_get res "success" (VBool false)) = true ->
  login_attempt w = (advance [login_request w] [] rest w, Ret Break).
Proof.
  intros Hs Hin Hok.
  unfold login_attempt. unfold mbind at 1, M_bind at 1, gets at 1.
  unfold mbind at 1, M_bind at 1.
  rewrite (emit_connected _ _ _ w (VDict res) rest Hs Hin).
  monad_unfold. cbn [py_get]. rewrite Hok.
  unfold advance, login_request, self_user. cbn. now rewrite app_nil_r.
Qed.

Lemma login_loop_step w a rest :
  inbox w = a :: rest ->
  login_loop w =
    (s ← login_attempt;
     match s with
     | Break => mret tt
     | Continue => login_loop_for (S (List.length rest))
     end) w.
Proof. intros Hin. unfold login_loop. now rewrite Hin. Qed.

(** X6: The loop of [login] goes on as long as the server throttles it: after
    any number of failure acknowledgements that ask to wait, followed by a
    success acknowledgement, it has sent a request and slept the time
    asked (a second at least) for each of them, sent one more request,
    and it returns. *)
Theorem login_retries_until_success acks delays (ok : dict) rest w :
  socket (bot w) <> VNone ->
  Forall2 throttle_ack acks delays ->
  truthy (dict_get ok "success" (VBool false)) = true ->
  inbox w = ((Returns <$> acks) ++ Returns (VDict ok) :: rest)%list ->
  login_loop w =
    (advance
       (List.concat ((fun n => [login_request w; Sleep (Z.max n 1)]) <$> delays)
        ++ [login_request w])
       (List.concat ((fun _ => [(ERROR, "login error: %s"); (WARNING, "sleep(%d)")])
                  <$> delays))
       rest w,
     Ret tt).
Proof.
  intros Hs HF Hok. revert w Hs.
  induction HF as [| ack n acks delays Hack _ IH]; intros w Hs Hin.
  - cbn in Hin. unfold login_loop. rewrite Hin. cbn [List.length login_loop_for].
    unfold mbind, M_bind.
    now rewrite (login_attempt_accepted w ok rest Hs Hin Hok).
  - destruct Hack as (d & err & c & g & -> & Hfail & Herr & Hm & Hg & Hn).
    cbn [fmap list_fmap app] in Hin.
    pose proof (login_attempt_throttled w d err _ c g n Hs Hin Hfail Herr Hm Hg Hn)
      as Hstep.
    rewrite (login_loop_step w _ _ Hin). unfold mbind, M_bind. rewrite Hstep.
    match goal with
    | |- login_loop_for _ ?w1 = _ =>
        change (login_loop w1 = (advance
          (List.concat ((fun n => [login_request w; Sleep (Z.max n 1)]) <$> n :: delays)
           ++ [login_request w])
          (List.concat ((fun _ => [(ERROR, "login error: %s"); (WARNING, "sleep(%d)")])
                     <$> n :: delays)) rest w, Ret tt));
        rewrite (IH w1) by (cbn; auto)
    end.
    rewrite advance_advance. reflexivity.
Qed.

(** On the sample bot, throttled twice: for 30 seconds, then for none. *)
Lemma login_retries_until_success_witness :
  let a1 := VDict (<["error" :=
              VStr "guest logins are limited to 1 per 30 seconds."]> ∅) in
  let a2 := VDict (<["error" := VStr "guest logins wait 0 seconds."]> ∅) in
  let ok : dict := <["success" := VBool true]> ∅ in
  let w := Sample.world [Returns a1; Returns a2; Returns (VDict ok)] in
  snd (login_loop w) = Ret tt /\
  trace (fst (login_loop w)) =
    [login_request w; Sleep 30; login_request w; Sleep 1; login_request w].
Proof.
  intros a1 a2 ok w.
  rewrite (login_retries_until_success [a1; a2] [30; 0] ok [] w).
  - split; reflexivity.
  - discriminate.
  - repeat constructor.
    + exists (<["error" := VStr "guest logins are limited to 1 per 30 seconds."]> ∅),
        "guest logins are limited to 1 per 30 seconds.",
        {| Re.start1 := Some "30 seconds."; Re.group1 := Some "30" |}, "30".
      repeat split; vm_compute; reflexivity.
    + exists (<["error" := VStr "guest logins wait 0 seconds."]> ∅),
        "guest logins wait 0 seconds.",
        {| Re.start1 := Some "0 seconds."; Re.group1 := Some "0" |}, "0".
      repeat split; vm_compute; reflexivity.
  - vm_compute. reflexivity.
  - reflexivity.
Defined.

(** ** What the loop of the login issues *)

Lemma issues_ret P {A} (a : A) : issues P (mret a).
Proof. intros w. exists []. cbn. now rewrite app_nil_r. Qed.

Lemma issues_raise P {A} e : issues P (raise e : M World A).
Proof. intros w. exists []. cbn. now rewrite app_nil_r. Qed.

Lemma issues_pure P {A} (o : outcome A) : issues P (pure o).
Proof. intros w. exists []. cbn. now rewrite app_nil_r. Qed.

Lemma issues_gets P {A} (f : World -> A) : issues P (gets f).
Proof. intros w. exists []. cbn. now rewrite app_nil_r. Qed.

Lemma issues_logger P lvl fmt : issues P (logger lvl fmt).
Proof. intros w. exists []. cbn. now rewrite app_nil_r. Qed.

Lemma issues_sleep (P : io -> Prop) delay : P (Sleep delay) -> issues P (sleep delay).
Proof. intros HP w. exists [Sleep delay]. cbn. auto. Qed.

Lemma issues_external (P : io -> Prop) call : P call -> issues P (external call).
Proof.
  intros HP w. exists [call]. unfold external.
  destruct (inbox w) as [| [v | e] rest]; cbn; auto.
Qed.

Lemma issues_emit (P : io -> Prop) event data response :
  P (Emit event data response) -> issues P (emit event data response).
Proof.
  intros HP w. unfold emit, mbind, M_bind, gets.
  destruct (socket (bot w)); try apply (issues_external P _ HP w).
  apply issues_raise.
Qed.

Lemma issues_bind P {A B} (m : M World A) (k : A -> M World B) :
  issues P m -> (forall a, issues P (k a)) -> issues P (m ≫= k).
Proof.
  intros Hm Hk w. unfold mbind, M_bind.
  destruct (Hm w) as (l1 & H1 & HP1).
  destruct (m w) as [w1 [a | e |]]; cbn [fst] in *; [| eauto | eauto].
  destruct (Hk a w1) as (l2 & H2 & HP2).
  exists (l1 ++ l2)%list. rewrite H2, H1, app_assoc.
  split; [reflexivity | now apply Forall_app].
Qed.

Lemma issues_try_except P {A} (m : M World A) catch :
  issues P m -> (forall e h, catch e = Some h -> issues P h) ->
  issues P (try_except m catch).
Proof.
  intros Hm Hc w. unfold try_except.
  destruct (Hm w) as (l1 & H1 & HP1).
  destruct (m w) as [w1 [a | e |]]; cbn [fst] in *; eauto.
  destruct (catch e) as [h |] eqn:He; [| cbn; eauto].
  destruct (Hc e h He w1) as (l2 & H2 & HP2).
  exists (l1 ++ l2)%list. rewrite H2, H1, app_assoc.
  split; [reflexivity | now apply Forall_app].
Qed.

Lemma login_attempt_issues : issues login_call login_attempt.
Proof.
  unfold login_attempt.
  repeat first
    [ apply issues_ret | apply issues_raise | apply issues_pure | apply issues_gets
    | apply issues_logger
    | apply issues_sleep; cbn; lia
    | apply issues_emit; exact I
    | apply issues_bind; [| intros ?]
    | apply issues_try_except; [| intros ? ? ?]
    | match goal with
      | |- issues _ (match ?x with _ => _ end) => destruct x
      | |- issues _ (if ?x then _ else _) => destruct x
      | H : match ?x with _ => _ end = Some _ |- _ =>
          destruct x; inversion H; subst; clear H
      end ].
Qed.

(** X7: Whatever the server answers, the loop of [login] issues nothing but
    [login] requests and sleeps, and never a sleep of less than a
    second. *)
Theorem login_loop_sleeps_a_second_or_more w :
  exists calls,
    trace (fst (login_loop w)) = (trace w ++ calls)%list /\
    Forall login_call calls /\
    forall delay, Sleep delay ∈ calls -> 1 <= delay.
Proof.
  assert (H : forall n, issues login_call (login_loop_for n)).
  { induction n as [| n IH]; cbn [login_loop_for]; [apply issues_pure |].
    apply issues_bind; [apply login_attempt_issues |].
    intros []; [apply issues_ret | exact IH]. }
  destruct (H (S (List.length (inbox w))) w) as (calls & Htr & HP).
  exists calls. split; [exact Htr |]. split; [exact HP |].
  intros delay Hin. rewrite Forall_forall in HP. exact (HP _ Hin).
Qed.

(** X8: An acknowledgement of a [login] request that is not an object makes
    the loop raise [AttributeError]; a failure acknowledgement whose
    error is not a string makes it raise [TypeError].  Neither is turned
    into a [LoginError], and the bot does not sleep or retry. *)
Theorem login_malformed_ack w res rest :
  socket (bot w) <> VNone ->
  inbox w = Returns res :: rest ->
  ((forall d : dict, res <> VDict d) ->
   login_loop w =
     (advance [login_request w] [] rest w, Raise (AttributeError "object" "get"))) /\
  (forall (d : dict) err,
     res = VDict d ->
     truthy (dict_get d "success" (VBool false)) = false ->
     dict_get d "error" (VStr "<no error message>") = err ->
     (forall s, err <> VStr s) ->
     login_loop w =
       (advance [login_request w] [(ERROR, "login error: %s")] rest w,
        Raise TypeError)).
Proof.
  intros Hs Hin.
  assert (Hstep : forall o w1,
            login_attempt w = (w1, Raise o) -> login_loop w = (w1, Raise o)).
  { intros o w1 H. rewrite (login_loop_step w _ _ Hin).
    unfold mbind, M_bind. now rewrite H. }
  split.
  - intros Hres. apply Hstep.
    unfold login_attempt. unfold mbind at 1, M_bind at 1, gets at 1.
    unfold mbind at 1, M_bind at 1.
    rewrite (emit_connected _ _ _ w res rest Hs Hin).
    monad_unfold. unfold advance, login_request, self_user.
    destruct res; cbn; rewrite ?app_nil_r; try reflexivity.
    now destruct (Hres d).
  - intros d err -> Hfail Herr Hnot. apply Hstep.
    unfold login_attempt. unfold mbind at 1, M_bind at 1, gets at 1.
    unfold mbind at 1, M_bind at 1.
    rewrite (emit_connected _ _ _ w (VDict d) rest Hs Hin).
    monad_unfold. cbn [py_get]. rewrite Hfail, Herr.
    destruct err; try reflexivity. now destruct (Hnot s).
Qed.

(** On the sample bot: an acknowledgement whose error is null. *)
Lemma login_malformed_ack_witness :
  snd (login_loop
         (Sample.world [Returns (VDict (<["error" := VNone]> ∅))]))
  = Raise TypeError.
Proof.
  destruct (login_malformed_ack
              (Sample.world [Returns (VDict (<["error" := VNone]> ∅))])
              (VDict (<["error" := VNone]> ∅)) []) as [_ H];
    [discriminate | reflexivity |].
  rewrite (H (<["error" := VNone]> ∅) VNone); try reflexivity.
  discriminate.
Defined.

(** * Further properties of the chat *)

Section ChatMore.

Variable check_permission : Channel.t -> string -> User.t -> outcome unit.

#[local] Abbreviation chat_message_ := (chat_message check_permission).

(** X20: When the channel refuses the chat permission, [chat_message] raises
    what the check raised and leaves the state as it was: nothing is sent,
    to a recipient or to the channel. *)
Theorem chat_message_denied msg to meta w e :
  check_permission (channel (bot w)) "chat" (self_user w) = Raise e ->
  chat_message_ msg to meta w = (w, Raise e).
Proof.
  intros Hperm. unfold chat_message, mbind, M_bind, gets, pure. cbn [id].
  now rewrite Hperm.
Qed.

(** [chat_message] up to the answer of the transport. *)
Lemma chat_message_emits msg to meta w :
  check_permission (channel (bot w)) "chat" (self_user w) = Ret tt ->
  to <> VNone \/
    truthy (User.muted (self_user w)) || truthy (User.smuted (self_user w)) = false ->
  chat_message_ msg to meta w =
    (res ← emit (chat_event to) (chat_payload msg to meta) (VStr "noflood");
     if truthy res then
       logger ERROR "chat_message: noflood: %s";;
       m ← pure (py_get res "msg" (VStr "noflood"));
       raise (ChannelPermissionError m)
     else mret tt) w.
Proof.
  intros Hperm Hto. unfold chat_message.
  unfold mbind at 1, M_bind at 1, gets at 1. cbn [id].
  unfold mbind at 1, M_bind at 1, pure at 1. rewrite Hperm.
  unfold mbind at 1, M_bind at 1.
  unfold chat_event, chat_payload.
  destruct to; try reflexivity.
  destruct Hto as [Hto | Hmuted]; [congruence |].
  unfold mbind at 1, M_bind at 1, gets at 1. now rewrite Hmuted.
Qed.

(** X21: A chat message that is allowed (the permission is granted, and the
    user is not muted or the message has a recipient) is sent in one
    request: [pm] with the recipient when there is one, [chatMsg]
    otherwise, with the text and the meta, or an empty meta.  When no
    flood notice answers, [chat_message] returns; when a flood notice
    does, it records an error and raises [ChannelPermissionError] with
    the message of the notice, or [noflood] when the notice has none. *)
Theorem chat_message_sent msg to meta w ack rest :
  check_permission (channel (bot w)) "chat" (self_user w) = Ret tt ->
  to <> VNone \/
    truthy (User.muted (self_user w)) || truthy (User.smuted (self_user w)) = false ->
  socket (bot w) <> VNone ->
  inbox w = Returns ack :: rest ->
  let request := Emit (chat_event to) (chat_payload msg to meta) (VStr "noflood") in
  (truthy ack = false ->
   chat_message_ msg to meta w = (advance [request] [] rest w, Ret tt)) /\
  (forall d : dict,
     ack = VDict d -> truthy ack = true ->
     chat_message_ msg to meta w =
       (advance [request] [(ERROR, "chat_message: noflood: %s")] rest w,
        Raise (ChannelPermissionError (dict_get d "msg" (VStr "noflood"))))).
Proof.
  intros Hperm Hto Hs Hin. cbn zeta.
  rewrite (chat_message_emits msg to meta w Hperm Hto).
  split.
  - intros Hack. unfold mbind at 1, M_bind at 1.
    rewrite (emit_connected _ _ _ w ack rest Hs Hin). cbv beta iota.
    rewrite Hack. unfold advance. cbn. now rewrite app_nil_r.
  - intros d Hd Hack. unfold mbind at 1, M_bind at 1.
    rewrite (emit_connected _ _ _ w ack rest Hs Hin). cbv beta iota.
    rewrite Hack, Hd. reflexivity.
Qed.

(** A chat message that is allowed, on a bot that has no session, raises
    [AttributeError] and changes nothing. *)
Theorem chat_message_not_connected msg to meta w :
  check_permission (channel (bot w)) "chat" (self_user w) = Ret tt ->
  to <> VNone \/
    truthy (User.muted (self_user w)) || truthy (User.smuted (self_user w)) = false ->
  socket (bot w) = VNone ->
  chat_message_ msg to meta w = (w, Raise (AttributeError "NoneType" "emit")).
Proof.
  intros Hperm Hto Hs.
  rewrite (chat_message_emits msg to meta w Hperm Hto).
  unfold emit. unfold mbind, M_bind, gets. now rewrite Hs.
Qed.

End ChatMore.

(** On the sample bot, whose chat permission is refused. *)
Lemma chat_message_denied_witness :
  chat_message (fun _ _ _ => Raise (ChannelPermissionError (VStr "chat")))
    (VStr "hi") VNone VNone (Sample.world [])
  = (Sample.world [], Raise (ChannelPermissionError (VStr "chat"))).
Proof.
  now apply (chat_message_denied
               (fun _ _ _ => Raise (ChannelPermissionError (VStr "chat")))).
Defined.

(** On the sample bot: a private message, answered by a flood notice. *)
Lemma chat_message_sent_witness :
  snd (chat_message Sample.check_permission (VStr "hi") (VStr "ann") VNone
         (Sample.world [Returns (VDict (<["msg" := VStr "slow down"]> ∅))]))
  = Raise (ChannelPermissionError (VStr "slow down")).
Proof.
  destruct (chat_message_sent Sample.check_permission (VStr "hi") (VStr "ann") VNone
              (Sample.world [Returns (VDict (<["msg" := VStr "slow down"]> ∅))])
              (VDict (<["msg" := VStr "slow down"]> ∅)) []) as [_ H];
    [reflexivity | left; discriminate | discriminate | reflexivity |].
  rewrite (H (<["msg" := VStr "slow down"]> ∅)); reflexivity.
Defined.

(** On the sample bot, disconnected: a private message. *)
Lemma chat_message_not_connected_witness :
  snd (chat_message Sample.check_permission (VStr "hi") (VStr "ann") VNone (parked []))
  = Raise (AttributeError "NoneType" "emit").
Proof.
  rewrite (chat_message_not_connected Sample.check_permission (VStr "hi") (VStr "ann")
             VNone (parked [])); try reflexivity.
  left. discriminate.
Defined.

(** * Properties of the run loop *)

Lemma disconnect_ends_disconnected w :
  snd (disconnect w) <> Blocked -> socket (bot (fst (disconnect w))) = VNone.
Proof.
  destruct (socket (bot w)) eqn:Hs.
  1: { now rewrite (disconnect_None w Hs). }
  all: destruct (inbox w) as [| a rest] eqn:Hin;
    [ unfold disconnect; monad_unfold; rewrite Hs, Hin; cbn;
      intros H; exfalso; apply H; reflexivity
    | rewrite (disconnect_connected w a rest) by (assumption || congruence);
      reflexivity ].
Qed.

Section RunFacts.

Variable uncloak_ip : value -> value.
Variable json_loads : value -> outcome value.
Variable str_other : value -> string.
Variable collaborator_handler : string -> value -> M World value.
Variable external_handler : nat -> string -> value -> M World value.
Variable retry_delay : value -> Z.

#[local] Abbreviation login_ :=
  (login uncloak_ip json_loads str_other collaborator_handler external_handler).
#[local] Abbreviation trigger_value_ :=
  (trigger_value uncloak_ip collaborator_handler external_handler).
#[local] Abbreviation run_turn_ :=
  (run_turn uncloak_ip json_loads str_other collaborator_handler external_handler
     retry_delay).
#[local] Abbreviation run_loop_for_ :=
  (run_loop_for uncloak_ip json_loads str_other collaborator_handler external_handler
     retry_delay).
#[local] Abbreviation run_for_ :=
  (run_for uncloak_ip json_loads str_other collaborator_handler external_handler
     retry_delay).

(** [run] is its login, its loop, and the end that [finish] describes. *)
Lemma run_for_eq fuel rt :
  run_for_ fuel rt =
    match login_ rt with
    | (rt1, Ret _) =>
        let '(rt2, o) := run_loop_for_ fuel rt1 in finish rt2 o
    | (rt1, o) => finish rt1 o
    end.
Proof.
  unfold run_for, try_finally, try_except, finish, on_world.
  unfold mbind at 1, M_bind at 1.
  destruct (login_ rt) as [rt1 [[] | e |]]; cbn [fst snd].
  - destruct (run_loop_for_ fuel rt1) as [rt2 [[] | e |]]; cbn [fst snd].
    + now destruct (disconnect (snd rt2)) as [w' [[] | e |]].
    + destruct (is_cancelled e); cbn;
        now destruct (disconnect (snd rt2)) as [w' [[] | e' |]].
    + reflexivity.
  - destruct (is_cancelled e); cbn;
      now destruct (disconnect (snd rt1)) as [w' [[] | e' |]].
  - reflexivity.
Qed.

Lemma finish_disconnected rt o :
  snd (finish rt o) <> Blocked -> socket (bot (snd (fst (finish rt o)))) = VNone.
Proof.
  unfold finish. destruct o as [[] | e |];
    [| | cbn; intros H; exfalso; now apply H];
    pose proof (disconnect_ends_disconnected (snd rt)) as H;
    destruct (disconnect (snd rt)) as [w' [[] | e' |]]; cbn in *;
    intros Hnb;
    first [ apply H; discriminate | exfalso; now apply Hnb ].
Qed.

(** X1: However [run] ends, it ends disconnected: when it returns or raises,
    after a failed login, a network error, an exception of a handler or a
    cancellation, the bot has no transport handle. *)
Theorem run_always_disconnects fuel rt :
  snd (run_for uncloak_ip json_loads str_other collaborator_handler
         external_handler retry_delay fuel rt) <> Blocked ->
  socket (bot (snd (fst (run_for uncloak_ip json_loads str_other
                           collaborator_handler external_handler retry_delay
                           fuel rt)))) = VNone.
Proof.
  rewrite run_for_eq.
  destruct (login_ rt) as [rt1 [[] | e |]].
  - destruct (run_loop_for_ fuel rt1) as [rt2 o]. apply finish_disconnected.
  - apply finish_disconnected.
  - apply finish_disconnected.
Qed.

Lemma recv_connected w a rest :
  socket (bot w) <> VNone -> inbox w = a :: rest ->
  recv w = (with_inbox rest w,
            match a with
            | Returns v => Ret v
            | Throws e => Raise e
            end).
Proof.
  intros Hs Hin. unfold recv, mbind, M_bind, gets.
  destruct (socket (bot w)); try congruence; rewrite Hin; now destruct a.
Qed.

(** A turn of the loop on an event of the transport. *)
Lemma run_turn_event r w v ev data rest :
  socket (bot w) <> VNone -> inbox w = Returns v :: rest ->
  unpack_pair v = Ret (ev, data) ->
  run_turn_ (r, w) = (trigger_value_ ev data;; mret Continue) (r, with_inbox rest w).
Proof.
  intros Hs Hin Hv. unfold run_turn.
  unfold mbind at 1, M_bind at 1, on_world at 1, try_except.
  unfold mbind at 1, M_bind at 1. cbn [fst snd].
  rewrite (recv_connected w _ rest Hs Hin).
  unfold mbind at 1, M_bind at 1, pure at 1. rewrite Hv. reflexivity.
Qed.

(** A turn of the loop on an exception of the transport. *)
Lemma run_turn_raise r w e rest :
  socket (bot w) <> VNone -> inbox w = Throws e :: rest ->
  (forall m, e <> SocketIOError m) ->
  run_turn_ (r, w) = ((r, with_inbox rest w), Raise e).
Proof.
  intros Hs Hin He. unfold run_turn.
  unfold mbind at 1, M_bind at 1, on_world at 1, try_except.
  unfold mbind at 1, M_bind at 1. cbn [fst snd].
  rewrite (recv_connected w _ rest Hs Hin).
  destruct e; try reflexivity. now destruct (He msg).
Qed.

(** A turn of the loop on a network error. *)
Lemma run_turn_network_error r w m rest :
  socket (bot w) <> VNone -> inbox w = Throws (SocketIOError m) :: rest ->
  run_turn_ (r, w) =
    if restart_on_error (bot w)
    then (login_;; mret Continue)
           (r, advance [Sleep (retry_delay (socket (bot w)))]
                 [(ERROR, "network error: %r"); (ERROR, "restarting")] rest w)
    else ((r, advance [] [(ERROR, "network error: %r")] rest w), Ret Break).
Proof.
  intros Hs Hin. unfold run_turn.
  unfold mbind at 1, M_bind at 1, on_world at 1, try_except.
  unfold mbind at 1, M_bind at 1. cbn [fst snd].
  rewrite (recv_connected w _ rest Hs Hin).
  unfold mret at 1, M_ret at 1.
  unfold mbind at 1, M_bind at 1, on_world at 1, logger at 1, modify at 1.
  cbn [fst snd with_inbox bot objs log trace inbox].
  unfold mbind at 1, M_bind at 1, gets at 1. cbn [snd bot].
  destruct (restart_on_error (bot w)); cbn [negb].
  - unfold mbind at 1, M_bind at 1, on_world at 1, logger at 1, modify at 1.
    cbn [fst snd bot objs log trace inbox].
    unfold mbind at 1, M_bind at 1, gets at 1. cbn [snd bot].
    unfold mbind at 1, M_bind at 1, on_world at 1, sleep at 1, modify at 1.
    cbn [fst snd bot objs log trace inbox].
    unfold advance. now rewrite <- app_assoc.
  - unfold advance. now rewrite app_nil_r.
Qed.

(** X2: [run] does not shield the loop from the handlers: when a handler
    raises while an event is dispatched, [run] stops receiving,
    disconnects, and raises what the handler raised. *)
Theorem run_handler_exception rt r w v ev data rest rt2 e fuel :
  login_ rt = ((r, w), Ret tt) ->
  socket (bot w) <> VNone -> inbox w = Returns v :: rest ->
  unpack_pair v = Ret (ev, data) ->
  trigger_value_ ev data (r, with_inbox rest w) = (rt2, Raise e) ->
  run_for_ (S fuel) rt = finish rt2 (Raise e).
Proof.
  intros Hlogin Hs Hin Hv Htr. rewrite run_for_eq, Hlogin.
  cbn [run_loop_for]. unfold mbind at 1, M_bind at 1.
  rewrite (run_turn_event r w v ev data rest Hs Hin Hv).
  unfold mbind at 1, M_bind at 1. now rewrite Htr.
Qed.

(** X3: With the restart on error turned off, a network error at a receive
    ends [run]: the error is recorded, nothing is retried, the bot
    disconnects and [run] returns. *)
Theorem run_network_error_stops rt r w m rest fuel :
  login_ rt = ((r, w), Ret tt) ->
  socket (bot w) <> VNone -> inbox w = Throws (SocketIOError m) :: rest ->
  restart_on_error (bot w) = false ->
  run_for_ (S fuel) rt =
    finish (r, advance [] [(ERROR, "network error: %r")] rest w) (Ret tt).
Proof.
  intros Hlogin Hs Hin Hr. rewrite run_for_eq, Hlogin.
  cbn [run_loop_for]. unfold mbind at 1, M_bind at 1.
  rewrite (run_turn_network_error r w m rest Hs Hin), Hr. reflexivity.
Qed.

(** X4: With the restart on error turned on, a network error at a receive is
    recorded, the bot sleeps the delay the session names, and logs in
    again before it goes on receiving; what that login raises ends the
    loop. *)
Theorem run_network_error_restarts r w m rest fuel :
  socket (bot w) <> VNone -> inbox w = Throws (SocketIOError m) :: rest ->
  restart_on_error (bot w) = true ->
  run_loop_for_ (S fuel) (r, w) =
    match login_ (r, advance [Sleep (retry_delay (socket (bot w)))]
                       [(ERROR, "network error: %r"); (ERROR, "restarting")] rest w)
    with
    | (rt1, Ret _) => run_loop_for_ fuel rt1
    | (rt1, Raise e) => (rt1, Raise e)
    | (rt1, Blocked) => (rt1, Blocked)
    end.
Proof.
  intros Hs Hin Hr. cbn [run_loop_for]. unfold mbind at 1, M_bind at 1.
  rewrite (run_turn_network_error r w m rest Hs Hin), Hr.
  unfold mbind at 1, M_bind at 1.
  destruct (login_ _) as [rt1 [[] | e |]]; reflexivity.
Qed.

(** X5: A cancellation at a receive is not an error of [run]: the loop ends,
    the bot disconnects, and [run] returns when the transport closes. *)
Theorem run_cancelled rt r w rest fuel :
  login_ rt = ((r, w), Ret tt) ->
  socket (bot w) <> VNone -> inbox w = Throws CancelledError :: rest ->
  run_for_ (S fuel) rt = finish (r, with_inbox rest w) (Raise CancelledError) /\
  (forall v rest', rest = Returns v :: rest' ->
     snd (run_for_ (S fuel) rt) = Ret tt /\
     socket (bot (snd (fst (run_for_ (S fuel) rt)))) = VNone).
Proof.
  intros Hlogin Hs Hin.
  assert (H : run_for_ (S fuel) rt =
              finish (r, with_inbox rest w) (Raise CancelledError)).
  { rewrite run_for_eq, Hlogin.
    cbn [run_loop_for]. unfold mbind at 1, M_bind at 1.
    rewrite (run_turn_raise r w CancelledError rest Hs Hin); [reflexivity |].
    discriminate. }
  split; [exact H |].
  intros v rest' ->. rewrite H. unfold finish. cbn [is_cancelled String.eqb snd fst].
  rewrite (disconnect_connected (with_inbox (Returns v :: rest') w) (Returns v) rest')
    by (cbn; auto).
  cbn. auto.
Qed.

End RunFacts.

(** On the sample bot: a cancellation while it receives. *)
Lemma run_always_disconnects_witness :
  let w := parked [Returns (VObj "s2"); Returns VNone;
                   Returns (VDict (<["success" := VBool true]> ∅));
                   Throws CancelledError; Returns VNone] in
  socket (bot (snd (fst (sample_run 3 w)))) = VNone.
Proof.
  intros w.
  apply (run_always_disconnects Sample.uncloak_ip Sample.json_loads Sample.str_other
           Sample.collaborator_handler Sample.external_handler (fun _ => 5)
           3 (Sample.handlers, w)).
  vm_compute. discriminate.
Defined.

(** On the sample bot: the server sends a [kick] event. *)
Lemma run_handler_exception_witness :
  let script := [Returns (VList [VStr "kick"; VStr "bye"]); Returns VNone] in
  let w := parked (Returns (VObj "s2") :: Returns VNone ::
                   Returns (VDict (<["success" := VBool true]> ∅)) :: script) in
  snd (sample_run 1 w) = Raise (Kicked (VStr "bye")) /\
  socket (bot (snd (fst (sample_run 1 w)))) = VNone.
Proof.
  intros script w. unfold sample_run.
  rewrite (run_handler_exception Sample.uncloak_ip Sample.json_loads Sample.str_other
             Sample.collaborator_handler Sample.external_handler (fun _ => 5)
             (Sample.handlers, w)
             (fst (fst (sample_login script))) (snd (fst (sample_login script)))
             (VList [VStr "kick"; VStr "bye"]) (VStr "kick") (VStr "bye")
             [Returns VNone]
             (fst (fst (sample_login script)),
              with_inbox [Returns VNone] (snd (fst (sample_login script))))
             (Kicked (VStr "bye")) 0).
  - vm_compute. auto.
  - vm_compute. reflexivity.
  - vm_compute. discriminate.
  - vm_compute. reflexivity.
  - reflexivity.
  - vm_compute. reflexivity.
Defined.

(** On the sample bot with the restart turned off. *)
Lemma run_network_error_stops_witness :
  let script := [Throws (SocketIOError "reset"); Returns VNone] in
  let rt := (Sample.handlers,
             parked_once (Returns (VObj "s2") :: Returns VNone ::
                          Returns (VDict (<["success" := VBool true]> ∅)) :: script)) in
  let res := run_for Sample.uncloak_ip Sample.json_loads Sample.str_other
               Sample.collaborator_handler Sample.external_handler (fun _ => 5) 1 rt in
  snd res = Ret tt /\ log (snd (fst res)) = [(ERROR, "network error: %r")].
Proof.
  intros script rt res. subst res.
  set (after := login Sample.uncloak_ip Sample.json_loads Sample.str_other
                  Sample.collaborator_handler Sample.external_handler rt).
  rewrite (run_network_error_stops Sample.uncloak_ip Sample.json_loads Sample.str_other
             Sample.collaborator_handler Sample.external_handler (fun _ => 5)
             rt (fst (fst after)) (snd (fst after)) "reset" [Returns VNone] 0).
  - vm_compute. auto.
  - vm_compute. reflexivity.
  - vm_compute. discriminate.
  - vm_compute. reflexivity.
  - vm_compute. reflexivity.
Defined.

(** On the sample bot, connected: the replies end with the network
    error, and the bot is left waiting for the transport to close. *)
Lemma run_network_error_restarts_witness :
  let res := run_loop_for Sample.uncloak_ip Sample.json_loads Sample.str_other
               Sample.collaborator_handler Sample.external_handler (fun _ => 5) 1
               (Sample.handlers, Sample.world [Throws (SocketIOError "reset")]) in
  snd res = Blocked /\ trace (snd (fst res)) = [Sleep 5; Close].
Proof.
  intros res. subst res.
  rewrite (run_network_error_restarts Sample.uncloak_ip Sample.json_loads
             Sample.str_other Sample.collaborator_handler Sample.external_handler
             (fun _ => 5) Sample.handlers
             (Sample.world [Throws (SocketIOError "reset")]) "reset" [] 0);
    [| discriminate | reflexivity | reflexivity].
  vm_compute. auto.
Defined.

(** On the sample bot: a cancellation while it receives. *)
Lemma run_cancelled_witness :
  let script := [Throws CancelledError; Returns VNone] in
  let w := parked (Returns (VObj "s2") :: Returns VNone ::
                   Returns (VDict (<["success" := VBool true]> ∅)) :: script) in
  snd (sample_run 1 w) = Ret tt.
Proof.
  intros script w. unfold sample_run.
  destruct (run_cancelled Sample.uncloak_ip Sample.json_loads Sample.str_other
              Sample.collaborator_handler Sample.external_handler (fun _ => 5)
              (Sample.handlers, w)
              (fst (fst (sample_login script))) (snd (fst (sample_login script)))
              [Returns VNone] 0) as [_ H].
  - vm_compute. reflexivity.
  - vm_compute. discriminate.
  - vm_compute. reflexivity.
  - apply (H VNone [] eq_refl).
Defined.

(** * Further properties of the handlers *)

Section HandlersMore.

Variable uncloak_ip : value -> value.

(** A [setUserMeta] event whose payload is not an object, or lacks the
    name or the meta, raises [TypeError] or [KeyError] for the first key
    that is missing, before the channel is asked anything: the state is
    unchanged. *)
Theorem setUserMeta_bad_payload data w :
  let res := _on_setUserMeta uncloak_ip data w in
  ((forall d : dict, data <> VDict d) -> res = (w, Raise TypeError)) /\
  (forall d : dict, data = VDict d -> d !! "name" = None ->
     res = (w, Raise (KeyError "name"))) /\
  (forall d : dict, data = VDict d -> is_Some (d !! "name") -> d !! "meta" = None ->
     res = (w, Raise (KeyError "meta"))).
Proof.
  cbn zeta. unfold _on_setUserMeta. split; [| split].
  - intros Hd. unfold mbind, M_bind, pure.
    destruct data; try reflexivity. now destruct (Hd d).
  - intros d -> Hn. unfold mbind, M_bind, pure. cbn [subscript]. now rewrite Hn.
  - intros d -> [n Hn] Hm. unfold mbind, M_bind, pure. cbn [subscript].
    now rewrite Hn, Hm.
Qed.

End HandlersMore.

